(** * wine_api_processor.py: a shallow embedding and its properties

    The development follows the layout of the script:
    - [Py]: the fragment of the Python runtime the script relies on
      (exceptions, [str] methods, [int()], [urllib.parse.quote_plus],
      fixed-point formatting);
    - [WineAPIProcessor]: the class of the same name, method by method,
      over an explicit world (network, file system, console, clock, random
      source) and an explicit store (the locals [stats] and [results] of
      [process_csv], and the trace of effects performed so far);
    - [CommandLine]: [main] and [run_interactive_mode], over the lines
      still to be read from the console;
    - the properties of the batch loop, of the request classification, of
      the synthetic price generator, of the results writer and of the
      command line.

    Conventions.  A Python [str] is a [string] holding its UTF-8 bytes, a
    Python [int] is a [Z], a Python [float] is the rational [Q] it denotes,
    and a sum or product of floats is rounded to the nearest double.  Only
    subclasses of [Exception] are modelled: [KeyboardInterrupt] and
    [SystemExit] are outside the model. *)

From Stdlib Require Import ZArith QArith Qpower String Ascii List Lia Lqa.
From stdpp Require Import base gmap strings list.
Import ListNotations.

#[local] Open Scope string_scope.
#[local] Open Scope Z_scope.

(* ===================================================================== *)
(** * The Python runtime fragment                                         *)
(* ===================================================================== *)

Module Py.

(** Exception classes that the script raises, catches or lets through. *)
Inductive exn : Set :=
  | FileNotFoundError
  | OSError
  | EOFError
  | ValueError
  | TypeError
  | RequestException
  | RuntimeError.

(** The outcome of a Python call: a value, or a raised exception. *)
Inductive result (A : Type) : Type :=
  | Ok (a : A)
  | Raise (e : exn).
Arguments Ok {A} a.
Arguments Raise {A} e.

(** A Python value as [csv.DictReader] hands it out: a string, or [None]
    for a field the line was too short to provide. *)
Inductive pyval : Set :=
  | PNone
  | PStr (s : string).

(** The cell [csv.writer] emits for a value: [None] becomes the empty
    string. *)
Definition csv_cell (v : pyval) : string :=
  match v with PNone => "" | PStr s => s end.

(** ** Characters *)

Definition code (c : ascii) : Z := Z.of_nat (nat_of_ascii c).

Definition between (lo hi : Z) (c : ascii) : bool :=
  (lo <=? code c) && (code c <=? hi).

(** White space as [str.isspace] and [str.strip] see it, by code point. *)
Definition is_space (cp : Z) : bool :=
  ((9 <=? cp) && (cp <=? 13)) || ((28 <=? cp) && (cp <=? 32))
  || (cp =? 133) || (cp =? 160) || (cp =? 5760)
  || ((8192 <=? cp) && (cp <=? 8202))
  || (cp =? 8232) || (cp =? 8233) || (cp =? 8239) || (cp =? 8287)
  || (cp =? 12288).

Definition is_digit (c : ascii) : bool := between 48 57 c.

Definition is_alnum (c : ascii) : bool :=
  is_digit c || between 65 90 c || between 97 122 c.

Definition lower_char (c : ascii) : ascii :=
  if between 65 90 c then ascii_of_nat (nat_of_ascii c + 32) else c.

Definition digit_char (d : Z) : ascii := ascii_of_nat (Z.to_nat (48 + d)).

(** ** [str] methods *)

Fixpoint rev_onto (s acc : string) : string :=
  match s with
  | EmptyString => acc
  | String c s' => rev_onto s' (String c acc)
  end.

Definition reverse (s : string) : string := rev_onto s "".

(** *** Characters of a string

    The bytes of a string are read as UTF-8: a byte below 128 is a
    character, a lead byte takes the one, two or three continuation bytes
    it announces; encodings longer than needed, of surrogates or beyond
    U+10FFFF are no characters.  A byte that begins no character is kept
    as a character of its own, with code point -1. *)

Definition is_continuation (c : ascii) : bool := between 128 191 c.

Definition payload (c : ascii) : Z := code c - 128.

(** The code point that begins with [c], and how many of the bytes that
    follow belong to it. *)
Definition decode_at (c : ascii) (s : string) : option (Z * nat) :=
  if code c <? 128 then Some (code c, 0%nat)
  else if between 194 223 c then
    match s with
    | String c1 _ =>
        if is_continuation c1
        then Some ((code c - 192) * 64 + payload c1, 1%nat)
        else None
    | _ => None
    end
  else if between 224 239 c then
    match s with
    | String c1 (String c2 _) =>
        if is_continuation c1 && is_continuation c2
           && negb ((code c =? 224) && (code c1 <? 160))
           && negb ((code c =? 237) && (160 <=? code c1))
        then Some (((code c - 224) * 64 + payload c1) * 64 + payload c2,
                   2%nat)
        else None
    | _ => None
    end
  else if between 240 244 c then
    match s with
    | String c1 (String c2 (String c3 _)) =>
        if is_continuation c1 && is_continuation c2 && is_continuation c3
           && negb ((code c =? 240) && (code c1 <? 144))
           && negb ((code c =? 244) && (144 <=? code c1))
        then Some ((((code c - 240) * 64 + payload c1) * 64 + payload c2)
                   * 64 + payload c3, 3%nat)
        else None
    | _ => None
    end
  else None.

(** The characters of a string, each with its bytes; [skip] counts the
    bytes of the current character still to be passed over. *)
Fixpoint chars_from (skip : nat) (s : string) : list (Z * string) :=
  match s with
  | EmptyString => []
  | String c s' =>
      match skip with
      | S k => chars_from k s'
      | O =>
          match decode_at c s' with
          | Some (cp, n) =>
              (cp, String c (String.substring 0 n s')) :: chars_from n s'
          | None => (-1, String c "") :: chars_from 0 s'
          end
      end
  end.

Definition chars (s : string) : list (Z * string) := chars_from 0 s.

Definition code_points (s : string) : list Z := map fst (chars s).

Fixpoint unchars (l : list (Z * string)) : string :=
  match l with
  | [] => ""
  | (_, bytes) :: l' => bytes +:+ unchars l'
  end.

Fixpoint drop_spaces (l : list (Z * string)) : list (Z * string) :=
  match l with
  | [] => []
  | (cp, bytes) :: l' => if is_space cp then drop_spaces l' else l
  end.

(** [s.strip()] *)
Definition strip (s : string) : string :=
  unchars (rev (drop_spaces (rev (drop_spaces (chars s))))).

(** [s.lower()] *)
Fixpoint lower (s : string) : string :=
  match s with
  | EmptyString => ""
  | String c s' => String (lower_char c) (lower s')
  end.

(** [s.rstrip('/')], used by [__init__] on the endpoint. *)
Fixpoint lstrip_char (x : ascii) (s : string) : string :=
  match s with
  | EmptyString => ""
  | String c s' => if Ascii.eqb c x then lstrip_char x s' else s
  end.

Definition rstrip_char (x : ascii) (s : string) : string :=
  reverse (lstrip_char x (reverse s)).

(** [s.startswith(p)] *)
Fixpoint startswith (p s : string) : bool :=
  match p, s with
  | EmptyString, _ => true
  | String a p', String b s' => Ascii.eqb a b && startswith p' s'
  | String _ _, EmptyString => false
  end.

(** [old in s] *)
Fixpoint contains (old s : string) : bool :=
  match s with
  | EmptyString => startswith old ""
  | String _ s' => startswith old s || contains old s'
  end.

(** [s.replace(old, new)] for a non-empty [old]: occurrences are found
    from left to right and do not overlap.  [skip] counts the characters
    of a matched occurrence that are still to be dropped. *)
Fixpoint replace_from (old new : string) (skip : nat) (s : string) : string :=
  match s with
  | EmptyString => ""
  | String c s' =>
      match skip with
      | S k => replace_from old new k s'
      | O =>
          if startswith old s
          then new +:+ replace_from old new (Nat.pred (String.length old)) s'
          else String c (replace_from old new 0 s')
      end
  end.

Definition replace (old new s : string) : string := replace_from old new 0 s.

(** [x in [a, b, ...]] on strings. *)
Definition str_in (x : string) (l : list string) : bool :=
  existsb (String.eqb x) l.

(** ** [str(n)] for an integer *)

Fixpoint digits_onto (fuel : nat) (n : Z) (acc : string) : string :=
  match fuel with
  | O => acc
  | S f =>
      let acc' := String (digit_char (n mod 10)) acc in
      if n / 10 =? 0 then acc' else digits_onto f (n / 10) acc'
  end.

Definition str_nat (n : Z) : string :=
  digits_onto (S (Z.to_nat (Z.log2 n))) n "".

Definition str_int (n : Z) : string :=
  if n <? 0 then String "-" (str_nat (- n)) else str_nat n.

(** ** [int(v)]

    [int(None)] raises [TypeError].  On a string, CPython first turns every
    character from 127 on into a space if it is white space and into its
    ASCII digit if it is a decimal digit of any script; then it skips the
    white space of C ([\t\n\v\f\r] and the space; the separators 28 to 31
    are not among them) at both ends, accepts one sign, and reads decimal
    digits, single underscores being allowed between two digits.  More than
    4300 digits (the default of [sys.set_int_max_str_digits] since Python
    3.11) and anything else raise [ValueError]. *)

(** White space for [int]. *)
Definition int_space (cp : Z) : bool :=
  ((9 <=? cp) && (cp <=? 13)) || (cp =? 32)
  || ((127 <=? cp) && is_space cp).

(** The digit zero of every script that has decimal digits (Unicode 14);
    the nine code points after it are the digits 1 to 9. *)
Definition decimal_zeros : list Z :=
  [48; 1632; 1776; 1984; 2406; 2534; 2662; 2790; 2918; 3046; 3174; 3302;
   3430; 3558; 3664; 3792; 3872; 4160; 4240; 6112; 6160; 6470; 6608; 6784;
   6800; 6992; 7088; 7232; 7248; 42528; 43216; 43264; 43472; 43504; 43600;
   44016; 65296; 66720; 68912; 69734; 69872; 69942; 70096; 70384; 70736;
   70864; 71248; 71360; 71472; 71904; 72016; 72784; 73040; 73120; 92768;
   92864; 93008; 120782; 120792; 120802; 120812; 120822; 123200; 123632;
   125264; 130032].

Definition decimal_digit (cp : Z) : option Z :=
  match List.find (fun zero => (zero <=? cp) && (cp <=? zero + 9))
          decimal_zeros with
  | Some zero => Some (cp - zero)
  | None => None
  end.

Fixpoint drop_int_spaces (l : list Z) : list Z :=
  match l with
  | [] => []
  | cp :: l' => if int_space cp then drop_int_spaces l' else l
  end.

(** The value of the digits, and how many there are. *)
Fixpoint int_digits (l : list Z) (acc : Z) (count : Z) (after_digit : bool)
    : option (Z * Z) :=
  match l with
  | [] => if after_digit then Some (acc, count) else None
  | cp :: l' =>
      match decimal_digit cp with
      | Some d => int_digits l' (10 * acc + d) (count + 1) true
      | None =>
          if (cp =? 95) && after_digit then int_digits l' acc count false
          else None
      end
  end.

Definition int_max_str_digits : Z := 4300.

Definition int_unsigned (l : list Z) : option Z :=
  match int_digits l 0 0 false with
  | Some (n, count) => if int_max_str_digits <? count then None else Some n
  | None => None
  end.

Definition int_of_str (s : string) : option Z :=
  match rev (drop_int_spaces (rev (drop_int_spaces (code_points s)))) with
  | 45 :: l => option_map Z.opp (int_unsigned l)
  | 43 :: l => int_unsigned l
  | l => int_unsigned l
  end.

Definition int (v : pyval) : result Z :=
  match v with
  | PNone => Raise TypeError
  | PStr s =>
      match int_of_str s with
      | Some n => Ok n
      | None => Raise ValueError
      end
  end.

(** ** [urllib.parse.quote_plus] *)

Definition hex_char (d : Z) : ascii :=
  if d <? 10 then digit_char d else ascii_of_nat (Z.to_nat (55 + d)).

Definition is_unreserved (c : ascii) : bool :=
  is_alnum c || str_in (String c "") ["_"; "."; "-"; "~"].

Fixpoint quote_plus_str (s : string) : string :=
  match s with
  | EmptyString => ""
  | String c s' =>
      (if is_unreserved c then String c ""
       else if Ascii.eqb c " " then "+"
       else String "%" (String (hex_char (code c / 16))
                          (String (hex_char (code c mod 16)) "")))
      +:+ quote_plus_str s'
  end.

(** [quote_plus(None)] ends in [quote_from_bytes], which raises
    [TypeError]. *)
Definition quote_plus (v : pyval) : result string :=
  match v with
  | PNone => Raise TypeError
  | PStr s => Ok (quote_plus_str s)
  end.

(** ** [f"{x:.2f}"]

    The value is rounded to the nearest hundredth, ties to even, and
    printed with exactly two fractional digits. *)

Definition round_half_even (x : Q) : Z :=
  let n := Qnum x in
  let d := Zpos (Qden x) in
  let q := n / d in
  let r := n mod d in
  match 2 * r ?= d with
  | Lt => q
  | Gt => q + 1
  | Eq => if Z.even q then q else q + 1
  end.

Definition two_digits (n : Z) : string :=
  String (digit_char (n / 10)) (String (digit_char (n mod 10)) "").

Definition format_2f (x : Q) : string :=
  let c := round_half_even (x * 100) in
  let a := Z.abs c in
  (if Qlt_le_dec x 0 then "-" else "")
  +:+ str_nat (a / 100) +:+ "." +:+ two_digits (a mod 100).

(** ** Arithmetic of floats

    A finite double is the rational it denotes.  [to_double] rounds a
    rational to the nearest double, ties to even, as every sum and product
    of floats is rounded; the exponent stops at -1022, where the doubles
    become evenly spaced.  (Beyond the largest double the result would be
    an infinity; no rational stands for it, and nothing here gets there.) *)

Definition pow2 (z : Z) : Q := (2 ^ z)%Q.

(** The exponent [e] with [2^e <= n/d < 2^(e+1)]. *)
Definition binade (n d : positive) : Z :=
  if Zpos d <=? Zpos n
  then Z.log2 (Zpos n / Zpos d)
  else - Z.log2_up ((Zpos d + Zpos n - 1) / Zpos n).

Definition round_positive (n d : positive) : Q :=
  let shift := 52 - Z.max (binade n d) (-1022) in
  inject_Z (round_half_even ((Zpos n # d) * pow2 shift)) * pow2 (- shift).

Definition to_double (x : Q) : Q :=
  match Qnum x with
  | Z0 => 0
  | Zpos n => round_positive n (Qden x)
  | Zneg n => - round_positive n (Qden x)
  end.

(** [x + y] and [x * y] on floats. *)
Definition float_add (x y : Q) : Q := to_double (x + y).

Definition float_mul (x y : Q) : Q := to_double (x * y).

(** ** Shapes of strings *)




End Py.

(* ===================================================================== *)
(** * The processor                                                       *)
(* ===================================================================== *)

Module WineAPIProcessor.
Import Py.

(** ** Data *)

(** An input row: the dict [csv.DictReader] yields. *)
Abbreviation CsvRow := (gmap string pyval).

(** [params] of the request: a dict whose insertion order is the order of
    the query string. *)
Definition Params := list (string * pyval).

Record Response := { status_code : Z; text : string }.

(** What opening the input and wrapping it in a [DictReader] gives: the
    header ([None] for an empty file), the data rows, and the error, if
    any, that ends the iteration early (a decoding error, say). *)
Record Table := {
  fieldnames : option (list string);
  rows : list CsvRow;
  read_error : option exn
}.

(** The dict [stats]. *)
Record Stats := {
  total_rows : Z;
  successful_calls : Z;
  failed_calls : Z;
  skipped_rows : Z
}.

(** One entry of [results]; the fields are the keys of the dict. *)
Record ProcessingResult := {
  Row : Z;
  Wine_Name : pyval;
  Vintage : pyval;
  Status : string;
  Mock_Price : string;
  Timestamp : string
}.

(** [self] *)
Record Processor := {
  api_key : string;
  base_url : string;
  rate_limit_delay : Q;
  enable_mock_pricing : bool
}.

(** ** Effects *)

Inductive level : Set := DEBUG | INFO | ERROR.

(** The messages of the script, by call site. *)
Inductive logmsg : Type :=
  | MsgColumnCount (n : nat)
  | MsgColumns (names : list string)
  | MsgRowProcessed (row_num : Z) (wine_name vintage : pyval)
  | MsgRowFailed (row_num : Z) (wine_name vintage : pyval)
  | MsgRowError (row_num : Z) (e : exn)
  | MsgFileNotFound (path : string)
  | MsgReadError (e : exn)
  | MsgMapped (csv_field api_field : string) (v : pyval)
  | MsgOriginalRow (row : CsvRow)
  | MsgMappedRow (mapped : gmap string pyval)
  | MsgCallSuccessful (body : string)
  | MsgCallStatus (status : Z) (body : string)
  | MsgRequestError (e : exn)
  | MsgUnexpectedError (e : exn)
  | MsgResultsWritten (path : string)
  | MsgWriteError (e : exn).

Inductive event : Type :=
  | EvLog (l : level) (m : logmsg)
  | EvGet (url : string) (params : Params) (timeout : Z)
  | EvSleep (seconds : Q)
  | EvWarnExists (path : string)
  | EvInput (prompt : string)
  | EvNewFile (path : string)
  | EvWrite (path : string) (table : list (list string)).

(** Everything outside the process.  The network, the random source and
    the clock are asked once per use; [step] of the store numbers the
    uses, so that two uses may answer differently. *)
Record World := {
  open_csv : string -> result Table;
  session_get : nat -> string -> Params -> result Response;
  random_random : nat -> Q;
  time_strftime : nat -> string;
  path_exists : string -> bool;
  console_input : result string;
  datetime_now : string;
  write_csv : string -> list (list string) -> result unit
}.

(** The store: the two locals of [process_csv] that the loop mutates, the
    number of questions asked to the world, and the effects so far, oldest
    first. *)
Record St := {
  stats : Stats;
  results : list ProcessingResult;
  step : nat;
  trace : list event
}.

(** ** A state-and-exception monad

    The store survives a raised exception, as it does in Python. *)

Definition M (A : Type) : Type := St -> result A * St.

Definition ret {A} (a : A) : M A := fun st => (Ok a, st).

Definition raise {A} (e : exn) : M A := fun st => (Raise e, st).

Definition bind {A B} (m : M A) (k : A -> M B) : M B :=
  fun st =>
    match m st with
    | (Ok a, st') => k a st'
    | (Raise e, st') => (Raise e, st')
    end.

(** [try: m  except ...: h e] ; a handler re-raises what its clauses do not
    match. *)
Definition try_except {A} (m : M A) (h : exn -> M A) : M A :=
  fun st =>
    match m st with
    | (Ok a, st') => (Ok a, st')
    | (Raise e, st') => h e st'
    end.

Definition lift {A} (r : result A) : M A := fun st => (r, st).

Notation "'let*' x ':=' m 'in' k" := (bind m (fun x => k))
  (at level 10, x name, m at level 100, k at level 200).

Definition emit (e : event) : M unit :=
  fun st => (Ok tt, {| stats := stats st; results := results st;
                       step := step st; trace := trace st ++ [e] |}).

(** The number of the next question to the world; asking advances it. *)
Definition tick : M nat :=
  fun st => (Ok (step st), {| stats := stats st; results := results st;
                              step := S (step st); trace := trace st |}).

Definition get_stats : M Stats := fun st => (Ok (stats st), st).

Definition set_stats (s : Stats) : M unit :=
  fun st => (Ok tt, {| stats := s; results := results st;
                       step := step st; trace := trace st |}).

(** [results.append(r)] *)
Definition append_result (r : ProcessingResult) : M unit :=
  fun st => (Ok tt, {| stats := stats st; results := results st ++ [r];
                       step := step st; trace := trace st |}).

Definition log (l : level) (m : logmsg) : M unit := emit (EvLog l m).

(** [stats[k] += 1] for the three counters the script touches. *)
Definition incr_total_rows : M unit :=
  let* s := get_stats in
  set_stats {| total_rows := total_rows s + 1;
               successful_calls := successful_calls s;
               failed_calls := failed_calls s;
               skipped_rows := skipped_rows s |}.

Definition incr_successful_calls : M unit :=
  let* s := get_stats in
  set_stats {| total_rows := total_rows s;
               successful_calls := successful_calls s + 1;
               failed_calls := failed_calls s;
               skipped_rows := skipped_rows s |}.

Definition incr_failed_calls : M unit :=
  let* s := get_stats in
  set_stats {| total_rows := total_rows s;
               successful_calls := successful_calls s;
               failed_calls := failed_calls s + 1;
               skipped_rows := skipped_rows s |}.

(** [time.sleep(d)]: a negative length raises [ValueError]. *)
Definition time_sleep (d : Q) : M unit :=
  if Qlt_le_dec d 0 then raise ValueError else emit (EvSleep d).

(** [random.uniform(a, b)] is [a + (b - a) * random()], for integers [a]
    and [b]: their difference is exact, the product and the sum are
    floats. *)
Definition random_uniform (w : World) (a b : Q) : M Q :=
  let* k := tick in
  ret (float_add a (float_mul (b - a) (random_random w k))).

(** [time.strftime('%Y-%m-%d %H:%M:%S')] *)
Definition strftime (w : World) : M string :=
  let* k := tick in
  ret (time_strftime w k).

(** [self.session.get(url, params=params, timeout=timeout)] *)
Definition http_get (w : World) (url : string) (params : Params)
    (timeout : Z) : M Response :=
  let* k := tick in
  let* _ := emit (EvGet url params timeout) in
  lift (session_get w k url params).

(** ** [__init__] *)

Definition __init__ (api_key base_url : string) (rate_limit_delay : Q)
    (enable_mock_pricing : bool) : Processor :=
  {| api_key := api_key;
     base_url := rstrip_char "/"%char base_url;
     rate_limit_delay := rate_limit_delay;
     enable_mock_pricing := enable_mock_pricing |}.

(** ** [_generate_mock_price] *)

Definition base_price (year : Z) : Z :=
  if year <? 2000 then 25
  else if year <? 2010 then 35
  else if year <? 2020 then 28
  else 22.

(** [current_year] is read from the clock and never used; it is left
    out. *)
Definition _generate_mock_price (self : Processor) (w : World)
    (vintage : pyval) : M string :=
  if negb (enable_mock_pricing self) then ret "N/A"
  else
    try_except
      (let* year := lift (int vintage) in
       let* variation := random_uniform w (-5) 8 in
       let final_price := float_add (inject_Z (base_price year)) variation in
       ret ("$" +:+ format_2f final_price))
      (fun e =>
         match e with
         | ValueError | TypeError => ret "$32.99"
         | _ => raise e
         end).

(** ** [_make_api_call] *)

(** The key that a header read with a byte-order mark produces. *)
Definition BOM_Wine_Name : string :=
  String (ascii_of_nat 239) (String (ascii_of_nat 187)
    (String (ascii_of_nat 191) "Wine Name")).

Definition field_mapping : list (string * string) :=
  [("Wine Name", "winename"); (BOM_Wine_Name, "winename");
   ("Vintage", "vintage")].

(** [d.get(k, dflt)] *)
Definition dict_get (d : gmap string pyval) (k : string) (dflt : pyval)
    : pyval :=
  default dflt (d !! k).

(** The loop over [field_mapping.items()]. *)
Fixpoint map_fields (row : CsvRow) (fm : list (string * string))
    (mapped_row : gmap string pyval) : M (gmap string pyval) :=
  match fm with
  | [] => ret mapped_row
  | (csv_field, api_field) :: fm' =>
      match row !! csv_field with
      | Some v =>
          let* _ := log DEBUG (MsgMapped csv_field api_field v) in
          map_fields row fm' (<[api_field := v]> mapped_row)
      | None => map_fields row fm' mapped_row
      end
  end.

(** Request construction: from the field mapping to the complete
    [params]. *)
Definition build_params (self : Processor) (w : World) (row : CsvRow)
    : M Params :=
  let* mapped_row := map_fields row field_mapping ∅ in
  let* _ := log DEBUG (MsgOriginalRow row) in
  let* _ := log DEBUG (MsgMappedRow mapped_row) in
  let* winename :=
    lift (quote_plus (dict_get mapped_row "winename" (PStr ""))) in
  let params :=
    [("api_key", PStr (api_key self));
     ("winename", PStr winename);
     ("vintage", dict_get mapped_row "vintage" (PStr ""));
     ("currencycode", PStr "USD");
     ("location", PStr "MA");
     ("state", PStr "MA");
     ("offer_type", PStr "sale")] in
  let* params :=
    (if enable_mock_pricing self
     then
       let* price :=
         _generate_mock_price self w
           (dict_get mapped_row "vintage" (PStr "")) in
       ret (params ++ [("price", PStr price)])%list
     else ret params) in
  ret (params ++ [("country", PStr "USA")])%list.

(** Sending, and the check of the response. *)
Definition send_request (self : Processor) (w : World) (params : Params)
    : M bool :=
  let* response := http_get w (base_url self) params 30 in
  if status_code response =? 200
  then
    let* _ := log DEBUG (MsgCallSuccessful (text response)) in
    ret true
  else
    let* _ :=
      log ERROR (MsgCallStatus (status_code response) (text response)) in
    ret false.

(** The body of the [try] of [_make_api_call]. *)
Definition api_call_body (self : Processor) (w : World) (row : CsvRow)
    : M bool :=
  let* params := build_params self w row in
  send_request self w params.

Definition _make_api_call (self : Processor) (w : World) (row : CsvRow)
    : M bool :=
  try_except (api_call_body self w row)
    (fun e =>
       match e with
       | RequestException =>
           let* _ := log ERROR (MsgRequestError e) in
           ret false
       | _ =>
           let* _ := log ERROR (MsgUnexpectedError e) in
           ret false
       end).

(** ** [_write_results_csv] *)

(** The two candidate output paths. *)
Definition results_path (csv_file_path : string) : string :=
  replace ".csv" "_results.csv" csv_file_path.

Definition dated_results_path (timestamp csv_file_path : string) : string :=
  replace ".csv" ("_results_" +:+ timestamp +:+ ".csv") csv_file_path.

(** The part before the [try]: the existence check and the question to the
    operator.  [input] raises [EOFError] when the console is closed; nothing
    catches it here. *)
Definition choose_output_path (w : World) (csv_file_path : string)
    : M string :=
  let output_csv_path := results_path csv_file_path in
  if path_exists w output_csv_path
  then
    let* _ := emit (EvWarnExists output_csv_path) in
    let* _ := emit (EvInput "Do you want to overwrite it? (y/n): ") in
    let* answer := lift (console_input w) in
    let overwrite := lower (strip answer) in
    if negb (str_in overwrite ["y"; "yes"])
    then
      let timestamp := datetime_now w in
      let output_csv_path := dated_results_path timestamp csv_file_path in
      let* _ := emit (EvNewFile output_csv_path) in
      ret output_csv_path
    else ret output_csv_path
  else ret output_csv_path.

Definition results_header (mock : bool) : list string :=
  if mock
  then ["Row"; "Wine Name"; "Vintage"; "Status"; "Mock Price"; "Timestamp"]
  else ["Row"; "Wine Name"; "Vintage"; "Status"; "Timestamp"].

Definition result_cells (mock : bool) (r : ProcessingResult) : list string :=
  if mock
  then [str_int (Row r); csv_cell (Wine_Name r); csv_cell (Vintage r);
        Status r; Mock_Price r; Timestamp r]
  else [str_int (Row r); csv_cell (Wine_Name r); csv_cell (Vintage r);
        Status r; Timestamp r].

(** The [try] block: opening the file and writing header and rows. *)
Definition write_table (self : Processor) (w : World)
    (results : list ProcessingResult) (output_csv_path : string) : M unit :=
  let table :=
    results_header (enable_mock_pricing self)
    :: map (result_cells (enable_mock_pricing self)) results in
  let* _ := lift (write_csv w output_csv_path table) in
  let* _ := emit (EvWrite output_csv_path table) in
  log INFO (MsgResultsWritten output_csv_path).

Definition _write_results_csv (self : Processor) (w : World)
    (results : list ProcessingResult) (csv_file_path : string) : M unit :=
  let* output_csv_path := choose_output_path w csv_file_path in
  try_except (write_table self w results output_csv_path)
    (fun e => log ERROR (MsgWriteError e)).

(** ** [process_csv] *)

Definition wine_name_of (row : CsvRow) : pyval :=
  dict_get row "Wine Name" (dict_get row BOM_Wine_Name (PStr "Unknown")).

Definition vintage_of (row : CsvRow) : pyval :=
  dict_get row "Vintage" (PStr "Unknown").

(** The body of the inner [try]. *)
Definition row_try (self : Processor) (w : World) (row_num : Z)
    (row : CsvRow) : M unit :=
  let* success := _make_api_call self w row in
  let wine_name := wine_name_of row in
  let vintage := vintage_of row in
  let* price := _generate_mock_price self w vintage in
  let* now := strftime w in
  let* _ :=
    append_result
      {| Row := row_num; Wine_Name := wine_name; Vintage := vintage;
         Status := if success then "Success" else "Failed";
         Mock_Price := price; Timestamp := now |} in
  let* _ :=
    (if success
     then
       let* _ := incr_successful_calls in
       log INFO (MsgRowProcessed row_num wine_name vintage)
     else
       let* _ := incr_failed_calls in
       log ERROR (MsgRowFailed row_num wine_name vintage)) in
  let* s := get_stats in
  if row_num <? total_rows s
  then time_sleep (rate_limit_delay self)
  else ret tt.

(** The inner [except Exception as e]. *)
Definition row_except (self : Processor) (w : World) (row_num : Z)
    (row : CsvRow) (e : exn) : M unit :=
  let* _ := incr_failed_calls in
  let* _ := log ERROR (MsgRowError row_num e) in
  let wine_name := wine_name_of row in
  let vintage := vintage_of row in
  let* price := _generate_mock_price self w vintage in
  let* now := strftime w in
  append_result
    {| Row := row_num; Wine_Name := wine_name; Vintage := vintage;
       Status := "Error"; Mock_Price := price; Timestamp := now |}.

(** One iteration of the [for]. *)
Definition process_row (self : Processor) (w : World) (row_num : Z)
    (row : CsvRow) : M unit :=
  let* _ := incr_total_rows in
  try_except (row_try self w row_num row) (row_except self w row_num row).

(** [for row_num, row in enumerate(reader, start=...)] *)
Fixpoint for_rows (self : Processor) (w : World) (rows : list CsvRow)
    (row_num : Z) : M unit :=
  match rows with
  | [] => ret tt
  | row :: rest =>
      let* _ := process_row self w row_num row in
      for_rows self w rest (row_num + 1)
  end.

(** The outer [try]: opening, the header, the loop, and the two handlers,
    which log and re-raise. *)
Definition read_and_process (self : Processor) (w : World)
    (csv_file_path : string) : M unit :=
  try_except
    (let* table := lift (open_csv w csv_file_path) in
     let* names :=
       match fieldnames table with
       | Some names => ret names
       | None => raise TypeError
       end in
     let* _ := log INFO (MsgColumnCount (length names)) in
     let* _ := log INFO (MsgColumns names) in
     let* _ := for_rows self w (rows table) 2 in
     match read_error table with
     | Some e => raise e
     | None => ret tt
     end)
    (fun e =>
       match e with
       | FileNotFoundError =>
           let* _ := log ERROR (MsgFileNotFound csv_file_path) in
           raise e
       | _ =>
           let* _ := log ERROR (MsgReadError e) in
           raise e
       end).

Definition new_stats : Stats :=
  {| total_rows := 0; successful_calls := 0; failed_calls := 0;
     skipped_rows := 0 |}.

Definition set_results (rs : list ProcessingResult) : M unit :=
  fun st => (Ok tt, {| stats := stats st; results := rs;
                       step := step st; trace := trace st |}).

Definition get_results : M (list ProcessingResult) :=
  fun st => (Ok (results st), st).

Definition process_csv (self : Processor) (w : World)
    (csv_file_path : string) : M Stats :=
  let* _ := set_stats new_stats in
  let* _ := set_results [] in
  let* _ := read_and_process self w csv_file_path in
  let* rs := get_results in
  let* _ := _write_results_csv self w rs csv_file_path in
  get_stats.

(** The store a run starts from. *)
Definition fresh : St :=
  {| stats := new_stats; results := []; step := 0; trace := [] |}.

(* ===================================================================== *)
(** * Observations on a run                                               *)
(* ===================================================================== *)

(** [m] never raises. *)
Definition returns {A} (m : M A) : Prop :=
  forall st, exists a, fst (m st) = Ok a.

(** Sleeps performed so far. *)
Fixpoint count_sleeps (tr : list event) : nat :=
  match tr with
  | [] => 0%nat
  | EvSleep _ :: tr' => S (count_sleeps tr')
  | _ :: tr' => count_sleeps tr'
  end.

Definition is_sleep (e : event) : bool :=
  match e with EvSleep _ => true | _ => false end.

(** [m] relates every store to the one it leaves, by [R]. *)
Definition keeps (R : St -> St -> Prop) {A} (m : M A) : Prop :=
  forall st, R st (snd (m st)).

(** The locals of [process_csv] are untouched and nothing slept. *)
Definition same_locals (st st' : St) : Prop :=
  stats st' = stats st /\ results st' = results st /\
  count_sleeps (trace st') = count_sleeps (trace st).

(** The [skipped_rows] counter is untouched. *)
Definition same_skipped (st st' : St) : Prop :=
  skipped_rows (stats st') = skipped_rows (stats st).

Definition quiet {A} (m : M A) : Prop := keeps same_locals m.

Definition skips_nothing {A} (m : M A) : Prop := keeps same_skipped m.

(** [True] exactly when the body of the [try] of [_make_api_call] ran to
    its end and answered [True]. *)
Definition call_succeeded (o : result bool) : bool :=
  match o with
  | Ok true => true
  | Ok false => false
  | Raise _ => false
  end.

Definition status_of (success : bool) : string :=
  if success then "Success" else "Failed".

(** The store [process_csv] hands to its outer [try]. *)
Definition reset (st : St) : St :=
  {| stats := new_stats; results := []; step := step st; trace := trace st |}.

(** ** Further observations *)

Definition is_get (e : event) : bool :=
  match e with EvGet _ _ _ => true | _ => false end.

(** An effect on the console or on the results file: the warning, the
    question, the announcement of the dated file, the write. *)
Definition is_output (e : event) : bool :=
  match e with
  | EvWarnExists _ | EvInput _ | EvNewFile _ | EvWrite _ _ => true
  | _ => false
  end.

Fixpoint count_events (f : event -> bool) (tr : list event) : nat :=
  match tr with
  | [] => 0%nat
  | e :: tr' => ((if f e then 1 else 0) + count_events f tr')%nat
  end.

(** The trace of [st'] is the trace of [st] followed by events that all
    satisfy [P]. *)
Definition extends (P : event -> Prop) (st st' : St) : Prop :=
  exists new, trace st' = (trace st ++ new)%list /\ Forall P new.

(** [params[k]] *)
Fixpoint params_get (k : string) (params : Params) : option pyval :=
  match params with
  | [] => None
  | (k', v) :: rest => if String.eqb k k' then Some v else params_get k rest
  end.

(** The names of the query parameters, in the order of the query string. *)
Definition param_names (mock : bool) : list string :=
  (["api_key"; "winename"; "vintage"; "currencycode"; "location"; "state";
    "offer_type"]
   ++ (if mock then ["price"] else []) ++ ["country"])%list.

(** The parameters that do not depend on the row. *)
Definition fixed_params (self : Processor) (params : Params) : Prop :=
  map fst params = param_names (enable_mock_pricing self) /\
  params_get "api_key" params = Some (PStr (api_key self)) /\
  params_get "currencycode" params = Some (PStr "USD") /\
  params_get "location" params = Some (PStr "MA") /\
  params_get "state" params = Some (PStr "MA") /\
  params_get "offer_type" params = Some (PStr "sale") /\
  params_get "country" params = Some (PStr "USA").

(** A request as [self] sends them. *)
Definition request_of (self : Processor) (e : event) : Prop :=
  match e with
  | EvGet url params timeout =>
      url = base_url self /\ timeout = 30 /\ fixed_params self params
  | _ => True
  end.

(** [stats] after one more call is counted. *)
Definition record_call (success : bool) (s : Stats) : Stats :=
  if success
  then {| total_rows := total_rows s;
          successful_calls := successful_calls s + 1;
          failed_calls := failed_calls s;
          skipped_rows := skipped_rows s |}
  else {| total_rows := total_rows s;
          successful_calls := successful_calls s;
          failed_calls := failed_calls s + 1;
          skipped_rows := skipped_rows s |}.

(** How many results carry the given status. *)
Fixpoint count_status (status : string) (rs : list ProcessingResult) : Z :=
  match rs with
  | [] => 0
  | r :: rs' =>
      (if String.eqb (Status r) status then 1 else 0)
      + count_status status rs'
  end.

(** The result describes the row: its number, its name and vintage as the
    loop reads them, a status of a completed call, and no price unless mock
    pricing is on. *)
Definition describes (self : Processor) (row_num : Z) (row : CsvRow)
    (r : ProcessingResult) : Prop :=
  Row r = row_num /\
  Wine_Name r = wine_name_of row /\
  Vintage r = vintage_of row /\
  (Status r = "Success" \/ Status r = "Failed") /\
  (enable_mock_pricing self = false -> Mock_Price r = "N/A").

(** The rows and the results, side by side, from [row_num] on. *)
Fixpoint described_from (self : Processor) (row_num : Z)
    (rows : list CsvRow) (rs : list ProcessingResult) : Prop :=
  match rows, rs with
  | [], [] => True
  | row :: rows', r :: rs' =>
      describes self row_num row r
      /\ described_from self (row_num + 1) rows' rs'
  | _, _ => False
  end.

(** The name the request carries, before escaping. *)
Definition name_sent (row : CsvRow) : pyval :=
  match row !! BOM_Wine_Name with
  | Some v => v
  | None => dict_get row "Wine Name" (PStr "")
  end.

(** The name the result records. *)
Definition name_recorded (row : CsvRow) : pyval :=
  match row !! "Wine Name" with
  | Some v => v
  | None => dict_get row BOM_Wine_Name (PStr "Unknown")
  end.

(** A row whose request can be built: [quote_plus] accepts its name. *)
Definition sendable (row : CsvRow) : bool :=
  match name_sent row with
  | PStr _ => true
  | PNone => false
  end.

Fixpoint count_sendable (rows : list CsvRow) : nat :=
  match rows with
  | [] => 0%nat
  | row :: rows' => ((if sendable row then 1 else 0) + count_sendable rows')%nat
  end.

(** [c * n] *)
Fixpoint replicate_char (n : nat) (c : ascii) : string :=
  match n with
  | O => ""
  | S n' => String c (replicate_char n' c)
  end.



(** [s.endswith(c)] for one character. *)
Fixpoint ends_with (c : ascii) (s : string) : bool :=
  match s with
  | EmptyString => false
  | String a EmptyString => Ascii.eqb a c
  | String _ s' => ends_with c s'
  end.

(** The table the writer hands to the file. *)
Definition results_table (self : Processor) (rs : list ProcessingResult)
    : list (list string) :=
  results_header (enable_mock_pricing self)
  :: map (result_cells (enable_mock_pricing self)) rs.

End WineAPIProcessor.

(* ===================================================================== *)
(** * The command line                                                    *)
(* ===================================================================== *)

Module CommandLine.
Import Py WineAPIProcessor.

(** What [parser.parse_args()] returns. *)
Record Args := {
  arg_csv_file : option string;
  arg_api_key : option string;
  arg_api_url : option string;
  arg_rate_limit : Q;
  arg_verbose : bool;
  arg_enable_mock_pricing : bool
}.

(** [not x] for an optional string: [None] and the empty string are
    false. *)
Definition absent (x : option string) : bool :=
  match x with
  | None => true
  | Some s => String.eqb s ""
  end.

(** [x or dflt] *)
Definition or_default (x : option string) (dflt : string) : string :=
  match x with
  | None => dflt
  | Some s => if String.eqb s "" then dflt else s
  end.

(** How a run of the script ends when no exception leaves it: [main]
    returns, or [sys.exit] is called. *)
Inductive ending : Set :=
  | Returned
  | SysExit (code : Z).

(** The world as the process sees it when the lines still to be read from
    the console are [stdin]: [input] answers the first one, and raises
    [EOFError] when there is none. *)
Definition with_stdin (w : World) (stdin : list string) : World :=
  {| open_csv := open_csv w;
     session_get := session_get w;
     random_random := random_random w;
     time_strftime := time_strftime w;
     path_exists := path_exists w;
     console_input :=
       match stdin with
       | answer :: _ => Ok answer
       | [] => Raise EOFError
       end;
     datetime_now := datetime_now w;
     write_csv := write_csv w |}.

(** What the dialogue of [run_interactive_mode] settles on. *)
Record Settings := {
  chosen_file : string;
  chosen_key : string;
  chosen_url : string;
  chosen_mock : bool
}.

Inductive dialogue : Type :=
  | Configured (s : Settings) (rest : list string)
  | Quit
  | EndOfInput.

(** [s.strip()], and the default when nothing is left. *)
Definition typed_or (answer dflt : string) : string :=
  if String.eqb (strip answer) "" then dflt else strip answer.

(** The questions of [run_interactive_mode], answered from [stdin]: the
    path, asked again as long as no such file exists and the operator wants
    to retry; the key and the endpoint, with their defaults; mock pricing;
    the confirmation, a refusal of which starts the dialogue over.  What is
    printed in between is not modelled. *)
Fixpoint collect_settings (file_exists : string -> bool)
    (stdin : list string) : dialogue :=
  match stdin with
  | [] => EndOfInput
  | path :: stdin1 =>
      let csv_file := strip path in
      if file_exists csv_file
      then
        match stdin1 with
        | key :: url :: mock :: confirm :: rest =>
            let api_key := typed_or key "test_api_key_123" in
            let api_url := typed_or url "https://postman-echo.com/get" in
            let enable_mock_pricing :=
              str_in (lower (strip mock)) ["y"; "yes"] in
            if str_in (lower (strip confirm)) ["n"; "no"]
            then collect_settings file_exists rest
            else Configured {| chosen_file := csv_file;
                               chosen_key := api_key;
                               chosen_url := api_url;
                               chosen_mock := enable_mock_pricing |} rest
        | _ => EndOfInput
        end
      else
        match stdin1 with
        | [] => EndOfInput
        | retry :: stdin2 =>
            if negb (str_in (lower (strip retry)) ["y"; "yes"])
            then Quit
            else collect_settings file_exists stdin2
        end
  end.

(** [run_interactive_mode].  An [input] at the end of the console raises
    [EOFError], which nothing catches.  When [process_csv] raises it has
    read nothing from the console, so the final "Press Enter to exit..."
    reads from the lines the dialogue left. *)
Definition run_interactive_mode (w : World) (stdin : list string)
    : M ending :=
  match collect_settings (path_exists w) stdin with
  | EndOfInput => raise EOFError
  | Quit => ret Returned
  | Configured s rest =>
      try_except
        (let processor :=
           __init__ (chosen_key s) (chosen_url s) 1 (chosen_mock s) in
         let* _ := process_csv processor (with_stdin w rest) (chosen_file s) in
         ret Returned)
        (fun e =>
           match rest with
           | [] => raise EOFError
           | _ :: _ => ret (SysExit 1)
           end)
  end.

(** [main], from the parsed arguments.  The set-up of the logging (and
    with it [arg_verbose]) has no counterpart here, and the log line of the
    handler is not part of the trace. *)
Definition main (args : Args) (w : World) (stdin : list string) : M ending :=
  if absent (arg_csv_file args) && absent (arg_api_key args)
     && absent (arg_api_url args)
  then run_interactive_mode w stdin
  else if absent (arg_csv_file args)
  then ret Returned
  else
    let api_key := or_default (arg_api_key args) "test_api_key_123" in
    let api_url :=
      or_default (arg_api_url args) "https://postman-echo.com/get" in
    try_except
      (let processor :=
         __init__ api_key api_url (arg_rate_limit args)
           (arg_enable_mock_pricing args) in
       let* _ :=
         process_csv processor (with_stdin w stdin)
           (or_default (arg_csv_file args) "") in
       ret Returned)
      (fun e => ret (SysExit 1)).

(** A request with the two defaults of the command line. *)
Definition default_request (e : event) : Prop :=
  match e with
  | EvGet url params _ =>
      url = "https://postman-echo.com/get" /\
      params_get "api_key" params = Some (PStr "test_api_key_123")
  | _ => True
  end.

End CommandLine.

(* ===================================================================== *)
(** * Sample inputs                                                       *)
(* ===================================================================== *)

Module Scenario.
Import Py WineAPIProcessor.

(** A row with the two columns the script knows. *)
Definition row_of (name vintage : string) : CsvRow :=
  <["Wine Name" := PStr name]> (<["Vintage" := PStr vintage]> ∅).

(** A line too short to provide the name: [DictReader] fills in [None]. *)
Definition short_row (vintage : string) : CsvRow :=
  <["Vintage" := PStr vintage]> (<["Wine Name" := PNone]> ∅).

Definition two_rows : Table :=
  {| fieldnames := Some ["Vintage"; "Wine Name"];
     rows := [row_of "Merlot" "1999"; row_of "Syrah" "2012"];
     read_error := None |}.

Definition three_rows : Table :=
  {| fieldnames := Some ["Wine Name"; "Vintage"];
     rows := [row_of "A" "1999"; row_of "B" "2012"; row_of "C" "bad"];
     read_error := None |}.

Definition ok_response : Response := {| status_code := 200; text := "{}" |}.

Definition not_found_response : Response :=
  {| status_code := 404; text := "not found" |}.

(** A world from its moving parts: the table every path opens to, the
    answer of the network, whether output paths exist, what the operator
    types, and what the disk says to a write. *)
Definition world_of (tbl : Table) (net : result Response) (there : bool)
    (typed : result string) (disk : result unit) : World :=
  {| open_csv := fun _ => Ok tbl;
     session_get := fun _ _ _ => net;
     random_random := fun _ => (1 # 2)%Q;
     time_strftime := fun _ => "2024-05-01 12:00:00";
     path_exists := fun _ => there;
     console_input := typed;
     datetime_now := "20240501_120000";
     write_csv := fun _ _ => disk |}.

(** Everything works and no results file is in the way. *)
Definition calm : World :=
  world_of two_rows (Ok ok_response) false (Raise EOFError) (Ok tt).

(** Every request times out. *)
Definition offline : World :=
  world_of two_rows (Raise RequestException) false (Raise EOFError) (Ok tt).

(** The service answers, but not with 200. *)
Definition refusing : World :=
  world_of two_rows (Ok not_found_response) false (Raise EOFError) (Ok tt).

(** The results file cannot be written. *)
Definition disk_full : World :=
  world_of two_rows (Ok ok_response) false (Raise EOFError) (Raise OSError).

(** The output path exists and the operator declines to overwrite. *)
Definition declining : World :=
  world_of two_rows (Ok ok_response) true (Ok "n") (Ok tt).

(** The output path exists and the operator accepts. *)
Definition accepting : World :=
  world_of two_rows (Ok ok_response) true (Ok "y") (Ok tt).

(** The first two requests are answered with 200 and the third times
    out.  With pricing off an iteration asks the world twice (the request,
    then the clock), so the third request is question number 4. *)
Definition flaky : World :=
  {| open_csv := fun _ => Ok three_rows;
     session_get := fun k _ _ =>
       if (k <? 4)%nat then Ok ok_response else Raise RequestException;
     random_random := fun _ => (1 # 2)%Q;
     time_strftime := fun _ => "2024-05-01 12:00:00";
     path_exists := fun _ => false;
     console_input := Raise EOFError;
     datetime_now := "20240501_120000";
     write_csv := fun _ _ => Ok tt |}.

Definition plain : Processor :=
  __init__ "test_api_key_123" "https://postman-echo.com/get" 1 false.

Definition pricing : Processor :=
  __init__ "test_api_key_123" "https://postman-echo.com/get" 1 true.

(** A store that no run of [process_csv] reaches: the count of rows is
    ahead of the row number. *)
Definition ahead : St :=
  {| stats := {| total_rows := 10; successful_calls := 0;
                 failed_calls := 0; skipped_rows := 0 |};
     results := []; step := 0; trace := [] |}.

(** A processor whose delay [time.sleep] rejects. *)
Definition hasty : Processor :=
  __init__ "test_api_key_123" "https://postman-echo.com/get" (-1) false.

(** No file is there to open. *)
Definition missing : World :=
  {| open_csv := fun _ => Raise FileNotFoundError;
     session_get := fun _ _ _ => Ok ok_response;
     random_random := fun _ => (1 # 2)%Q;
     time_strftime := fun _ => "2024-05-01 12:00:00";
     path_exists := fun _ => false;
     console_input := Raise EOFError;
     datetime_now := "20240501_120000";
     write_csv := fun _ _ => Ok tt |}.

(** A file of zero bytes: no header. *)
Definition empty_file : Table :=
  {| fieldnames := None; rows := []; read_error := None |}.

Definition empty : World :=
  world_of empty_file (Ok ok_response) false (Raise EOFError) (Ok tt).

(** Two good rows, then bytes that do not decode. *)
Definition garbled_file : Table :=
  {| fieldnames := Some ["Wine Name"; "Vintage"];
     rows := [row_of "Merlot" "1999"; row_of "Syrah" "2012"];
     read_error := Some ValueError |}.

Definition garbled : World :=
  world_of garbled_file (Ok ok_response) false (Raise EOFError) (Ok tt).

(** The results file exists and the console is closed. *)
Definition unattended : World :=
  world_of two_rows (Ok ok_response) true (Raise EOFError) (Ok tt).


(** A row read from a file that begins with a byte-order mark, and a row
    that has both spellings of the name column. *)
Definition marked_row (name vintage : string) : CsvRow :=
  <[BOM_Wine_Name := PStr name]> (<["Vintage" := PStr vintage]> ∅).

Definition twice_named_row (marked plain_name vintage : string) : CsvRow :=
  <[BOM_Wine_Name := PStr marked]> (row_of plain_name vintage).

End Scenario.

Module Session.
Import Py WineAPIProcessor CommandLine.

(** [--api-key secret], and no file. *)
Definition key_only : Args :=
  {| arg_csv_file := None; arg_api_key := Some "secret";
     arg_api_url := None; arg_rate_limit := 1; arg_verbose := false;
     arg_enable_mock_pricing := false |}.

(** [--csv-file wines.csv], and nothing else. *)
Definition file_only : Args :=
  {| arg_csv_file := Some "wines.csv"; arg_api_key := None;
     arg_api_url := None; arg_rate_limit := 1; arg_verbose := false;
     arg_enable_mock_pricing := false |}.

(** Every file exists; otherwise as calm as can be. *)
Definition furnished : World :=
  Scenario.world_of Scenario.two_rows (Ok Scenario.ok_response) true
    (Raise EOFError) (Ok tt).

(** A dialogue: a path, the defaults for key and endpoint, mock pricing,
    and the confirmation; then one more line. *)
Definition typed : list string :=
  [" wines.csv "; ""; ""; "y"; ""; ""].

(** The same, refused once at the confirmation and typed again. *)
Definition retyped : list string :=
  (["wines.csv"; "k"; "u"; "n"; "no"] ++ typed)%list.

(** No file can be opened, though every path exists. *)
Definition unreadable : World :=
  {| open_csv := fun _ => Raise OSError;
     session_get := fun _ _ _ => Ok Scenario.ok_response;
     random_random := fun _ => (1 # 2)%Q;
     time_strftime := fun _ => "2024-05-01 12:00:00";
     path_exists := fun _ => true;
     console_input := Raise EOFError;
     datetime_now := "20240501_120000";
     write_csv := fun _ _ => Ok tt |}.

End Session.

Import Py WineAPIProcessor.

(* ===================================================================== *)
(** * Reasoning about computations                                        *)
(* ===================================================================== *)

(** ** Relations between the store before and after *)

Section Keeps.
Variable R : St -> St -> Prop.
Hypothesis R_refl : forall s, R s s.
Hypothesis R_trans : forall a b c, R a b -> R b c -> R a c.

Lemma keeps_ret {A} (a : A) : keeps R (ret a).
Proof. intros st. apply R_refl. Qed.

Lemma keeps_raise {A} (e : exn) : keeps R (@raise A e).
Proof. intros st. apply R_refl. Qed.

Lemma keeps_lift {A} (r : result A) : keeps R (lift r).
Proof. intros st. apply R_refl. Qed.

Lemma keeps_bind {A B} (m : M A) (k : A -> M B) :
  keeps R m -> (forall a, keeps R (k a)) -> keeps R (bind m k).
Proof.
  intros Hm Hk st. unfold bind.
  specialize (Hm st). destruct (m st) as [[a | e] st']; simpl in *.
  - eapply R_trans; [exact Hm | apply Hk].
  - exact Hm.
Qed.

Lemma keeps_try {A} (m : M A) (h : exn -> M A) :
  keeps R m -> (forall e, keeps R (h e)) -> keeps R (try_except m h).
Proof.
  intros Hm Hh st. unfold try_except.
  specialize (Hm st). destruct (m st) as [[a | e] st']; simpl in *.
  - exact Hm.
  - eapply R_trans; [exact Hm | apply Hh].
Qed.
End Keeps.

(** ** Computations that always return *)

Lemma returns_try {A} (m : M A) (h : exn -> M A) :
  (forall e, returns (h e)) -> returns (try_except m h).
Proof.
  intros Hh st. unfold try_except.
  destruct (m st) as [[a | e] st']; [exists a; reflexivity | apply Hh].
Qed.

Lemma returns_inv {A} (m : M A) (st : St) :
  returns m -> exists a st', m st = (Ok a, st').
Proof.
  intros H. destruct (H st) as [a Ha].
  destruct (m st) as [r st'] eqn:E. simpl in Ha. subst r. eauto.
Qed.

(** ** Three instances *)

Lemma same_locals_refl st : same_locals st st.
Proof. repeat split. Qed.

Lemma same_locals_trans a b c :
  same_locals a b -> same_locals b c -> same_locals a c.
Proof. unfold same_locals. intuition congruence. Qed.

Lemma same_skipped_refl st : same_skipped st st.
Proof. reflexivity. Qed.

Lemma same_skipped_trans a b c :
  same_skipped a b -> same_skipped b c -> same_skipped a c.
Proof. unfold same_skipped. congruence. Qed.

Lemma same_locals_skipped a b : same_locals a b -> same_skipped a b.
Proof. intros (H & _ & _). unfold same_skipped. now rewrite H. Qed.

Lemma count_sleeps_app (t1 t2 : list event) :
  count_sleeps (t1 ++ t2) = (count_sleeps t1 + count_sleeps t2)%nat.
Proof.
  induction t1 as [| e t1 IH]; simpl; [reflexivity |].
  destruct e; simpl; rewrite IH; reflexivity.
Qed.

Lemma quiet_skips_nothing {A} (m : M A) : quiet m -> skips_nothing m.
Proof. intros H st. apply same_locals_skipped, H. Qed.

Lemma quiet_emit (e : event) : is_sleep e = false -> quiet (emit e).
Proof.
  intros He st. unfold emit, same_locals. simpl.
  rewrite count_sleeps_app. simpl.
  destruct e; simpl in *; try discriminate; repeat split; lia.
Qed.

Lemma quiet_log (l : level) (m : logmsg) : quiet (log l m).
Proof. apply quiet_emit. reflexivity. Qed.

Lemma quiet_tick : quiet tick.
Proof. intros st. repeat split. Qed.

Lemma skips_nothing_emit (e : event) : skips_nothing (emit e).
Proof. intros st. reflexivity. Qed.

Lemma skips_nothing_append (r : ProcessingResult) :
  skips_nothing (append_result r).
Proof. intros st. reflexivity. Qed.

Lemma skips_nothing_incr_total : skips_nothing incr_total_rows.
Proof. intros st. reflexivity. Qed.

Lemma skips_nothing_incr_successful : skips_nothing incr_successful_calls.
Proof. intros st. reflexivity. Qed.

Lemma skips_nothing_incr_failed : skips_nothing incr_failed_calls.
Proof. intros st. reflexivity. Qed.

Lemma skips_nothing_get_stats : skips_nothing get_stats.
Proof. intros st. reflexivity. Qed.

Lemma skips_nothing_get_results : skips_nothing get_results.
Proof. intros st. reflexivity. Qed.

Lemma skips_nothing_sleep (d : Q) : skips_nothing (time_sleep d).
Proof. intros st. unfold time_sleep. destruct (Qlt_le_dec d 0); reflexivity. Qed.

(** One step of a proof that a computation is quiet: peel a combinator, or
    split on the test of a conditional. *)
Ltac quiet_step :=
  first
    [ apply (keeps_ret same_locals same_locals_refl)
    | apply (keeps_raise same_locals same_locals_refl)
    | apply (keeps_lift same_locals same_locals_refl)
    | apply quiet_log
    | apply quiet_tick
    | apply quiet_emit; reflexivity
    | apply (keeps_bind same_locals same_locals_trans)
    | apply (keeps_try same_locals same_locals_trans)
    | match goal with
      | |- keeps _ (if ?b then _ else _) => destruct b
      | |- keeps _ (match ?x with _ => _ end) => destruct x
      | |- quiet (if ?b then _ else _) => destruct b
      | |- quiet (match ?x with _ => _ end) => destruct x
      end
    | intro ].

Ltac quiet_tac := unfold quiet; repeat quiet_step.

Ltac skips_step :=
  first
    [ apply (keeps_ret same_skipped same_skipped_refl)
    | apply (keeps_raise same_skipped same_skipped_refl)
    | apply (keeps_lift same_skipped same_skipped_refl)
    | apply skips_nothing_emit
    | apply skips_nothing_append
    | apply skips_nothing_incr_total
    | apply skips_nothing_incr_successful
    | apply skips_nothing_incr_failed
    | apply skips_nothing_get_stats
    | apply skips_nothing_get_results
    | apply skips_nothing_sleep
    | apply (keeps_bind same_skipped same_skipped_trans)
    | apply (keeps_try same_skipped same_skipped_trans)
    | match goal with
      | |- keeps _ (if ?b then _ else _) => destruct b
      | |- keeps _ (match ?x with _ => _ end) => destruct x
      | |- skips_nothing (if ?b then _ else _) => destruct b
      | |- skips_nothing (match ?x with _ => _ end) => destruct x
      end
    | intro ].

(** ** The helpers of the loop are quiet and always return *)

Lemma quiet_random_uniform w a b : quiet (random_uniform w a b).
Proof. unfold random_uniform. quiet_tac. Qed.

Lemma quiet_strftime w : quiet (strftime w).
Proof. unfold strftime. quiet_tac. Qed.

Lemma quiet_generate_mock_price self w vintage :
  quiet (_generate_mock_price self w vintage).
Proof.
  unfold _generate_mock_price.
  destruct (negb (enable_mock_pricing self)).
  - quiet_tac.
  - unfold quiet. apply (keeps_try same_locals same_locals_trans).
    + apply (keeps_bind same_locals same_locals_trans); [quiet_tac |].
      intros year.
      apply (keeps_bind same_locals same_locals_trans);
        [apply quiet_random_uniform | quiet_tac].
    + intros e. destruct e; quiet_tac.
Qed.

Lemma returns_generate_mock_price self w vintage :
  returns (_generate_mock_price self w vintage).
Proof.
  intros st. unfold _generate_mock_price.
  destruct (negb (enable_mock_pricing self)); [eexists; reflexivity |].
  unfold try_except, bind, lift, random_uniform, tick, ret, int.
  destruct vintage as [| s]; [eexists; reflexivity |].
  destruct (int_of_str s); eexists; reflexivity.
Qed.

Lemma quiet_map_fields row fm mapped : quiet (map_fields row fm mapped).
Proof.
  revert mapped. induction fm as [| [csv_field api_field] fm IH];
    intros mapped; simpl.
  - quiet_tac.
  - destruct (row !! csv_field).
    + unfold quiet. apply (keeps_bind same_locals same_locals_trans).
      * apply quiet_log.
      * intros _. apply IH.
    + apply IH.
Qed.

Lemma quiet_build_params self w row : quiet (build_params self w row).
Proof.
  unfold build_params, quiet.
  apply (keeps_bind same_locals same_locals_trans);
    [apply quiet_map_fields | intros mapped].
  do 3 (apply (keeps_bind same_locals same_locals_trans);
        [quiet_tac | intro]).
  apply (keeps_bind same_locals same_locals_trans); [| quiet_tac].
  destruct (enable_mock_pricing self); [| quiet_tac].
  apply (keeps_bind same_locals same_locals_trans);
    [apply quiet_generate_mock_price | quiet_tac].
Qed.

Lemma quiet_http_get w url params timeout :
  quiet (http_get w url params timeout).
Proof. unfold http_get. quiet_tac. Qed.

Lemma quiet_send_request self w params : quiet (send_request self w params).
Proof.
  unfold send_request, quiet.
  apply (keeps_bind same_locals same_locals_trans);
    [apply quiet_http_get | quiet_tac].
Qed.

Lemma quiet_make_api_call self w row : quiet (_make_api_call self w row).
Proof.
  unfold _make_api_call, api_call_body, quiet.
  apply (keeps_try same_locals same_locals_trans).
  - apply (keeps_bind same_locals same_locals_trans);
      [apply quiet_build_params | intro; apply quiet_send_request].
  - intros e. destruct e; quiet_tac.
Qed.

Lemma returns_make_api_call self w row : returns (_make_api_call self w row).
Proof.
  unfold _make_api_call. apply returns_try.
  intros e st. destruct e; exists false; reflexivity.
Qed.

(** ** One iteration *)

Lemma make_api_call_value self w row st :
  fst (_make_api_call self w row st)
  = Ok (call_succeeded (fst (api_call_body self w row st))).
Proof.
  unfold _make_api_call, try_except.
  destruct (api_call_body self w row st) as [[[|] | e] st']; simpl;
    try reflexivity.
  destruct e; reflexivity.
Qed.

(** The [try] body from a store in which [total_rows] already counts the
    current row: the test of the rate limiter compares [row_num], which is
    one ahead, with that count, so it fails and the body ends normally. *)
Lemma row_try_counted self w row_num row st :
  total_rows (stats st) = row_num - 1 ->
  exists r st',
    row_try self w row_num row st = (Ok tt, st') /\
    results st' = (results st ++ [r])%list /\
    Row r = row_num /\
    Status r
    = status_of (call_succeeded (fst (api_call_body self w row st))) /\
    total_rows (stats st') = total_rows (stats st) /\
    skipped_rows (stats st') = skipped_rows (stats st) /\
    count_sleeps (trace st') = count_sleeps (trace st).
Proof.
  intros Hinv. unfold row_try.
  pose proof (make_api_call_value self w row st) as Hval.
  pose proof (quiet_make_api_call self w row st) as (Hs1 & Hr1 & Ht1).
  destruct (returns_inv (_make_api_call self w row) st
              (returns_make_api_call self w row)) as (success & s1 & E1).
  rewrite E1 in Hval, Hs1, Hr1, Ht1. simpl in Hval, Hs1, Hr1, Ht1.
  injection Hval as Hval.
  pose proof (quiet_generate_mock_price self w (vintage_of row) s1)
    as (Hs2 & Hr2 & Ht2).
  destruct (returns_inv (_generate_mock_price self w (vintage_of row)) s1
              (returns_generate_mock_price self w (vintage_of row)))
    as (price & s2 & E2).
  rewrite E2 in Hs2, Hr2, Ht2. simpl in Hs2, Hr2, Ht2.
  unfold bind at 1. rewrite E1.
  unfold bind at 1. rewrite E2.
  assert (Hlt : (row_num <? total_rows (stats st)) = false)
    by (apply Z.ltb_ge; lia).
  exists {| Row := row_num; Wine_Name := wine_name_of row;
            Vintage := vintage_of row; Status := status_of success;
            Mock_Price := price; Timestamp := time_strftime w (step s2) |}.
  destruct success; unfold status_of;
    unfold bind, strftime, tick, ret, append_result, incr_successful_calls,
      incr_failed_calls, get_stats, set_stats, log, emit, bind; simpl;
    rewrite Hs2, Hs1, Hlt; eexists; split; try reflexivity; simpl;
    rewrite Hr2, Hr1, <- Hval, count_sleeps_app, Ht2, Ht1; simpl;
    repeat split; lia.
Qed.

(** A whole iteration, from a store in which [total_rows] counts the rows
    before the current one. *)
Lemma process_row_counted self w row_num row st :
  total_rows (stats st) = row_num - 2 ->
  exists r st',
    process_row self w row_num row st = (Ok tt, st') /\
    results st' = (results st ++ [r])%list /\
    Row r = row_num /\
    Status r
    = status_of (call_succeeded
                   (fst (api_call_body self w row (snd (incr_total_rows st)))))
    /\
    total_rows (stats st') = row_num - 1 /\
    skipped_rows (stats st') = skipped_rows (stats st) /\
    count_sleeps (trace st') = count_sleeps (trace st).
Proof.
  intros Hinv. unfold process_row.
  set (st0 := snd (incr_total_rows st)).
  assert (H0 : total_rows (stats st0) = row_num - 1) by (simpl; lia).
  destruct (row_try_counted self w row_num row st0 H0)
    as (r & st' & Erun & Hres & Hrow & Hstatus & Htot & Hskip & Hsl).
  exists r, st'.
  change (bind incr_total_rows
            (fun _ => try_except (row_try self w row_num row)
                        (row_except self w row_num row)) st)
    with (try_except (row_try self w row_num row)
            (row_except self w row_num row) st0).
  unfold try_except. rewrite Erun.
  repeat split; try assumption.
  rewrite Htot. exact H0.
Qed.

(** ** The loop *)

(** The invariant of the [for]: on entry of the iteration for [row_num],
    [total_rows] is [row_num - 2]. *)
Lemma for_rows_counted self w rows :
  forall row_num st,
    total_rows (stats st) = row_num - 2 ->
    exists rs st',
      for_rows self w rows row_num st = (Ok tt, st') /\
      results st' = (results st ++ rs)%list /\
      length rs = length rows /\
      (forall (k : nat) r, rs !! k = Some r -> Row r = row_num + Z.of_nat k)
      /\
      total_rows (stats st') = row_num - 2 + Z.of_nat (length rows) /\
      skipped_rows (stats st') = skipped_rows (stats st) /\
      count_sleeps (trace st') = count_sleeps (trace st).
Proof.
  induction rows as [| row rest IH]; intros row_num st Hinv.
  - exists [], st. simpl. rewrite app_nil_r.
    repeat split; try lia. intros k r Hk. destruct k; discriminate.
  - destruct (process_row_counted self w row_num row st Hinv)
      as (r & s1 & Erun & Hres & Hrow & _ & Htot & Hskip & Hsl).
    destruct (IH (row_num + 1) s1 ltac:(lia))
      as (rs & s2 & Erun2 & Hres2 & Hlen & Hnum & Htot2 & Hskip2 & Hsl2).
    exists (r :: rs), s2. simpl. unfold bind. rewrite Erun, Erun2.
    repeat split.
    + rewrite Hres2, Hres, <- app_assoc. reflexivity.
    + simpl. lia.
    + intros k r' Hk. destruct k as [| k]; simpl in Hk.
      * injection Hk as <-. lia.
      * apply Hnum in Hk. lia.
    + lia.
    + congruence.
    + congruence.
Qed.

(** ** The writer *)

Lemma quiet_choose_output_path w csv_file_path :
  quiet (choose_output_path w csv_file_path).
Proof. unfold choose_output_path. quiet_tac. Qed.

Lemma quiet_write_table self w rs path : quiet (write_table self w rs path).
Proof. unfold write_table. quiet_tac. Qed.

Lemma quiet_write_results_csv self w rs csv_file_path :
  quiet (_write_results_csv self w rs csv_file_path).
Proof.
  unfold _write_results_csv, quiet.
  apply (keeps_bind same_locals same_locals_trans);
    [apply quiet_choose_output_path | intros path].
  apply (keeps_try same_locals same_locals_trans);
    [apply quiet_write_table | quiet_tac].
Qed.

(** Whatever the file system does, the [try] around the writing returns. *)
Lemma write_results_csv_returns self w rs csv_file_path st path st1 :
  choose_output_path w csv_file_path st = (Ok path, st1) ->
  fst (_write_results_csv self w rs csv_file_path st) = Ok tt.
Proof.
  intros E. unfold _write_results_csv, bind. rewrite E.
  unfold try_except, write_table, bind, lift, emit, log, emit.
  destruct (write_csv w path _) as [[] | e]; reflexivity.
Qed.

(** ** The outer [try] *)

Lemma process_csv_unfold self w csv_file_path st :
  process_csv self w csv_file_path st
  = (let* _ := read_and_process self w csv_file_path in
     let* rs := get_results in
     let* _ := _write_results_csv self w rs csv_file_path in
     get_stats) (reset st).
Proof. reflexivity. Qed.

Lemma read_and_process_opened self w csv_file_path st tbl names :
  total_rows (stats st) = 0 ->
  open_csv w csv_file_path = Ok tbl ->
  fieldnames tbl = Some names ->
  exists rs o st',
    read_and_process self w csv_file_path st = (o, st') /\
    (read_error tbl = None -> o = Ok tt) /\
    results st' = (results st ++ rs)%list /\
    length rs = length (rows tbl) /\
    (forall (k : nat) r, rs !! k = Some r -> Row r = 2 + Z.of_nat k) /\
    total_rows (stats st') = Z.of_nat (length (rows tbl)) /\
    skipped_rows (stats st') = skipped_rows (stats st) /\
    count_sleeps (trace st') = count_sleeps (trace st).
Proof.
  intros Hinv Hopen Hnames.
  set (s0 := {| stats := stats st; results := results st; step := step st;
                trace := (trace st
                          ++ [EvLog INFO (MsgColumnCount (length names))])
                         ++ [EvLog INFO (MsgColumns names)] |}).
  assert (H0 : total_rows (stats s0) = 2 - 2) by (simpl; lia).
  destruct (for_rows_counted self w (rows tbl) 2 s0 H0)
    as (rs & s1 & Erun & Hres & Hlen & Hnum & Htot & Hskip & Hsl).
  assert (Hsl0 : count_sleeps (trace s0) = count_sleeps (trace st)).
  { subst s0. simpl. rewrite !count_sleeps_app. simpl. lia. }
  exists rs.
  unfold read_and_process, try_except, bind, lift. rewrite Hopen, Hnames.
  unfold ret at 1, log, emit. simpl. fold s0. rewrite Erun.
  destruct (read_error tbl) as [e |].
  - destruct e; simpl; eexists _, _; (split; [reflexivity |]); simpl;
      rewrite ?count_sleeps_app; simpl;
      repeat split; try discriminate; try assumption; try lia.
  - exists (Ok tt), s1. simpl.
    repeat split; try assumption; try lia.
Qed.

(** Without the invariant: nothing on any path touches [skipped_rows]. *)
Lemma skips_nothing_generate_mock_price self w vintage :
  skips_nothing (_generate_mock_price self w vintage).
Proof. apply quiet_skips_nothing, quiet_generate_mock_price. Qed.

Lemma skips_nothing_process_row self w row_num row :
  skips_nothing (process_row self w row_num row).
Proof.
  unfold process_row, skips_nothing.
  apply (keeps_bind same_skipped same_skipped_trans);
    [apply skips_nothing_incr_total | intros _].
  apply (keeps_try same_skipped same_skipped_trans).
  - unfold row_try.
    apply (keeps_bind same_skipped same_skipped_trans);
      [apply quiet_skips_nothing, quiet_make_api_call | intros success].
    apply (keeps_bind same_skipped same_skipped_trans);
      [apply skips_nothing_generate_mock_price | intros price].
    apply (keeps_bind same_skipped same_skipped_trans);
      [apply quiet_skips_nothing, quiet_strftime | intros now].
    repeat skips_step.
  - intros e. unfold row_except.
    do 2 (apply (keeps_bind same_skipped same_skipped_trans);
          [repeat skips_step | intros _]).
    apply (keeps_bind same_skipped same_skipped_trans);
      [apply skips_nothing_generate_mock_price | intros price].
    apply (keeps_bind same_skipped same_skipped_trans);
      [apply quiet_skips_nothing, quiet_strftime | intros now].
    apply skips_nothing_append.
Qed.

Lemma skips_nothing_for_rows self w rows :
  forall row_num, skips_nothing (for_rows self w rows row_num).
Proof.
  induction rows as [| row rest IH]; intros row_num; simpl.
  - apply (keeps_ret same_skipped same_skipped_refl).
  - apply (keeps_bind same_skipped same_skipped_trans);
      [apply skips_nothing_process_row | intros _; apply IH].
Qed.

Lemma skips_nothing_read_and_process self w csv_file_path :
  skips_nothing (read_and_process self w csv_file_path).
Proof.
  unfold read_and_process, skips_nothing.
  apply (keeps_try same_skipped same_skipped_trans).
  - apply (keeps_bind same_skipped same_skipped_trans);
      [repeat skips_step | intros tbl].
    apply (keeps_bind same_skipped same_skipped_trans);
      [repeat skips_step | intros names].
    do 2 (apply (keeps_bind same_skipped same_skipped_trans);
          [apply skips_nothing_emit | intros _]).
    apply (keeps_bind same_skipped same_skipped_trans);
      [apply skips_nothing_for_rows | intros _].
    repeat skips_step.
  - intros e. destruct e; repeat skips_step.
Qed.

Lemma skips_nothing_after_reset self w csv_file_path :
  skips_nothing
    (let* _ := read_and_process self w csv_file_path in
     let* rs := get_results in
     let* _ := _write_results_csv self w rs csv_file_path in
     get_stats).
Proof.
  apply (keeps_bind same_skipped same_skipped_trans);
    [apply skips_nothing_read_and_process | intros _].
  apply (keeps_bind same_skipped same_skipped_trans);
    [apply skips_nothing_get_results | intros rs].
  apply (keeps_bind same_skipped same_skipped_trans);
    [apply quiet_skips_nothing, quiet_write_results_csv | intros _].
  apply skips_nothing_get_stats.
Qed.


(* ===================================================================== *)
(** * The batch loop                                                      *)
(* ===================================================================== *)

Lemma process_csv_value self w csv_file_path st s :
  fst (process_csv self w csv_file_path st) = Ok s ->
  s = stats (snd (process_csv self w csv_file_path st)).
Proof.
  rewrite process_csv_unfold. unfold bind, get_results, get_stats.
  destruct (read_and_process self w csv_file_path (reset st))
    as [[[] | e] s1]; [| discriminate].
  destruct (_write_results_csv self w (results s1) csv_file_path s1)
    as [[[] | e] s2]; [| discriminate].
  simpl. congruence.
Qed.

(** [process_csv] leaves in the store the [results] of its outer [try]. *)
Lemma process_csv_results self w csv_file_path st :
  results (snd (process_csv self w csv_file_path st))
  = results (snd (read_and_process self w csv_file_path (reset st))).
Proof.
  rewrite process_csv_unfold. unfold bind, get_results, get_stats.
  destruct (read_and_process self w csv_file_path (reset st))
    as [[[] | e] s1]; [| reflexivity].
  pose proof (quiet_write_results_csv self w (results s1) csv_file_path s1)
    as (_ & Hr & _).
  destruct (_write_results_csv self w (results s1) csv_file_path s1)
    as [[[] | e] s2]; simpl in *; exact Hr.
Qed.

(** No run of [process_csv] sleeps, whatever the input and the world. *)
Lemma read_and_process_never_sleeps self w csv_file_path st :
  total_rows (stats st) = 0 ->
  count_sleeps (trace (snd (read_and_process self w csv_file_path st)))
  = count_sleeps (trace st).
Proof.
  intros Hinv.
  destruct (open_csv w csv_file_path) as [tbl | e] eqn:Hopen.
  - destruct (fieldnames tbl) as [names |] eqn:Hnames.
    + destruct (read_and_process_opened self w csv_file_path st tbl names
                  Hinv Hopen Hnames)
        as (rs & o & st' & E & _ & _ & _ & _ & _ & _ & Hsl).
      rewrite E. exact Hsl.
    + unfold read_and_process, try_except, bind, lift.
      rewrite Hopen, Hnames. simpl. rewrite count_sleeps_app. simpl. lia.
  - unfold read_and_process, try_except, bind, lift. rewrite Hopen.
    destruct e; simpl; rewrite count_sleeps_app; simpl; lia.
Qed.

Lemma process_csv_never_sleeps self w csv_file_path st :
  count_sleeps (trace (snd (process_csv self w csv_file_path st)))
  = count_sleeps (trace st).
Proof.
  rewrite process_csv_unfold. unfold bind, get_results, get_stats.
  pose proof (read_and_process_never_sleeps self w csv_file_path (reset st)
                eq_refl) as H1.
  destruct (read_and_process self w csv_file_path (reset st))
    as [[[] | e] s1]; simpl in H1; [| exact H1].
  pose proof (quiet_write_results_csv self w (results s1) csv_file_path s1)
    as (_ & _ & H2).
  destruct (_write_results_csv self w (results s1) csv_file_path s1)
    as [[[] | e] s2]; simpl in *; congruence.
Qed.

(** The scenario of three rows answered success, success, transport
    error. *)
Example three_rows_two_successes :
  fst (process_csv Scenario.plain Scenario.flaky "wines.csv" fresh)
  = Ok {| total_rows := 3; successful_calls := 2; failed_calls := 1;
          skipped_rows := 0 |} /\
  map (fun r => (Row r, Status r))
    (results (snd (process_csv Scenario.plain Scenario.flaky
                     "wines.csv" fresh)))
  = [(2, "Success"); (3, "Success"); (4, "Failed")].
Proof. vm_compute. split; reflexivity. Qed.

(** C2, at an input with two data rows: the delay that should separate
    the first row from the second is not performed.  The run processes both
    rows, returns, and its trace holds no sleep at all, where the rate
    limiter should have slept once (N - 1 with N = 2). *)
Theorem C2_two_rows_without_delay :
  length (rows Scenario.two_rows) = 2%nat /\
  fst (process_csv Scenario.plain Scenario.calm "wines.csv" fresh)
  = Ok {| total_rows := 2; successful_calls := 2; failed_calls := 0;
          skipped_rows := 0 |} /\
  count_sleeps
    (trace (snd (process_csv Scenario.plain Scenario.calm "wines.csv" fresh)))
  = 0%nat /\
  (0 <> 2 - 1)%nat.
Proof. vm_compute. repeat split; discriminate. Qed.

(** C3: when the input opens to a table with a header and N data rows,
    [process_csv] leaves N entries in [results], one per row, and the entry
    at 1-based position k+1 carries the row number (k+1) + 1. *)
Theorem C3_one_result_per_row self w csv_file_path st tbl names :
  open_csv w csv_file_path = Ok tbl ->
  fieldnames tbl = Some names ->
  length (results (snd (process_csv self w csv_file_path st)))
  = length (rows tbl) /\
  forall (k : nat) r,
    results (snd (process_csv self w csv_file_path st)) !! k = Some r ->
    Row r = Z.of_nat (S k) + 1.
Proof.
  intros Hopen Hnames. rewrite process_csv_results.
  destruct (read_and_process_opened self w csv_file_path (reset st) tbl names
              eq_refl Hopen Hnames)
    as (rs & o & st' & E & _ & Hres & Hlen & Hnum & _).
  rewrite E. simpl. rewrite Hres. simpl. split; [exact Hlen |].
  intros k r Hk. apply Hnum in Hk. lia.
Qed.

Lemma C3_one_result_per_row_witness :
  length (results (snd (process_csv Scenario.plain Scenario.offline
                          "wines.csv" fresh)))
  = length (rows Scenario.two_rows) /\
  forall (k : nat) r,
    results (snd (process_csv Scenario.plain Scenario.offline
                    "wines.csv" fresh)) !! k = Some r ->
    Row r = Z.of_nat (S k) + 1.
Proof.
  apply (C3_one_result_per_row Scenario.plain Scenario.offline "wines.csv"
           fresh Scenario.two_rows ["Vintage"; "Wine Name"]);
    reflexivity.
Defined.

(** C7: in every run of [process_csv] the [skipped_rows] counter ends at
    0, and the statistics the call returns, when it returns, are those of
    the store, so their [skipped_rows] is 0. *)
Theorem C7_skipped_rows_stays_zero self w csv_file_path st :
  skipped_rows (stats (snd (process_csv self w csv_file_path st))) = 0 /\
  forall s,
    fst (process_csv self w csv_file_path st) = Ok s -> skipped_rows s = 0.
Proof.
  assert (H : skipped_rows
                (stats (snd (process_csv self w csv_file_path st))) = 0).
  { rewrite process_csv_unfold.
    pose proof (skips_nothing_after_reset self w csv_file_path (reset st))
      as Hk.
    unfold same_skipped in Hk. rewrite Hk. reflexivity. }
  split; [exact H |].
  intros s Hs. apply process_csv_value in Hs. subst s. exact H.
Qed.

Lemma C7_skipped_rows_stays_zero_witness :
  skipped_rows
    (stats (snd (process_csv Scenario.plain Scenario.refusing
                   "wines.csv" fresh))) = 0 /\
  skipped_rows {| total_rows := 2; successful_calls := 0; failed_calls := 2;
                  skipped_rows := 0 |} = 0.
Proof.
  destruct (C7_skipped_rows_stays_zero Scenario.plain Scenario.refusing
              "wines.csv" fresh) as [H1 H2].
  split; [exact H1 |]. apply H2. vm_compute. reflexivity.
Defined.

(** C8: once the loop is done and the output path is chosen, a write that
    raises, whatever the exception, is caught: [process_csv] returns, its
    value is the statistics as the loop left them, and the last effect of
    the run is the error line in the log. *)
Theorem C8_write_failure_is_contained self w csv_file_path st st1 path st2 e :
  read_and_process self w csv_file_path (reset st) = (Ok tt, st1) ->
  choose_output_path w csv_file_path st1 = (Ok path, st2) ->
  write_csv w path
    (results_header (enable_mock_pricing self)
     :: map (result_cells (enable_mock_pricing self)) (results st1))
  = Raise e ->
  fst (process_csv self w csv_file_path st) = Ok (stats st1) /\
  last (trace (snd (process_csv self w csv_file_path st)))
  = Some (EvLog ERROR (MsgWriteError e)).
Proof.
  intros Hloop Hpath Hwrite.
  pose proof (quiet_choose_output_path w csv_file_path st1) as (Hs & _ & _).
  rewrite Hpath in Hs. simpl in Hs.
  assert (E : process_csv self w csv_file_path st
              = (Ok (stats st2),
                 {| stats := stats st2; results := results st2;
                    step := step st2;
                    trace := trace st2 ++ [EvLog ERROR (MsgWriteError e)] |})).
  { rewrite process_csv_unfold. unfold bind. rewrite Hloop.
    unfold get_results, _write_results_csv, bind. cbv beta iota.
    rewrite Hpath.
    unfold try_except, write_table, bind, lift. rewrite Hwrite.
    reflexivity. }
  rewrite E. simpl. rewrite last_snoc, Hs. split; reflexivity.
Qed.

Lemma C8_write_failure_is_contained_witness :
  fst (process_csv Scenario.plain Scenario.disk_full "wines.csv" fresh)
  = Ok {| total_rows := 2; successful_calls := 2; failed_calls := 0;
          skipped_rows := 0 |} /\
  last (trace (snd (process_csv Scenario.plain Scenario.disk_full
                      "wines.csv" fresh)))
  = Some (EvLog ERROR (MsgWriteError OSError)).
Proof.
  pose (run := read_and_process Scenario.plain Scenario.disk_full "wines.csv"
                 (reset fresh)).
  pose (chosen := choose_output_path Scenario.disk_full "wines.csv" (snd run)).
  apply (C8_write_failure_is_contained Scenario.plain Scenario.disk_full
           "wines.csv" fresh (snd run) "wines_results.csv" (snd chosen)
           OSError);
    vm_compute; reflexivity.
Defined.

(* ===================================================================== *)
(** * Classification of a request                                         *)
(* ===================================================================== *)

(** What the body of the [try] answers, from the request it builds and
    what the network says to it. *)
Lemma api_call_body_value self w row st :
  fst (api_call_body self w row st)
  = match build_params self w row st with
    | (Ok params, st1) =>
        match session_get w (step st1) (base_url self) params with
        | Ok response => Ok (status_code response =? 200)
        | Raise e => Raise e
        end
    | (Raise e, _) => Raise e
    end.
Proof.
  unfold api_call_body, bind.
  destruct (build_params self w row st) as [[params | e] st1];
    [| reflexivity].
  unfold send_request, http_get, bind, tick, emit, lift. simpl.
  destruct (session_get w (step st1) (base_url self) params)
    as [response | e]; [| reflexivity].
  destruct (status_code response =? 200); reflexivity.
Qed.

(** C4: [_make_api_call] never raises; it answers [True] exactly when the
    request was built, sent, and answered with status code 200; any other
    status code, any error raised by the transport, and any error raised
    while the request is built make it answer [False]. *)
Theorem C4_only_200_succeeds self w row st :
  (exists b, fst (_make_api_call self w row st) = Ok b) /\
  (forall params st1 response,
     build_params self w row st = (Ok params, st1) ->
     session_get w (step st1) (base_url self) params = Ok response ->
     (status_code response = 200 ->
      fst (_make_api_call self w row st) = Ok true) /\
     (status_code response <> 200 ->
      fst (_make_api_call self w row st) = Ok false)) /\
  (forall params st1 e,
     build_params self w row st = (Ok params, st1) ->
     session_get w (step st1) (base_url self) params = Raise e ->
     fst (_make_api_call self w row st) = Ok false) /\
  (forall st1 e,
     build_params self w row st = (Raise e, st1) ->
     fst (_make_api_call self w row st) = Ok false).
Proof.
  rewrite make_api_call_value, api_call_body_value.
  split; [eexists; reflexivity |].
  split; [| split].
  - intros params st1 response Hb Hg. rewrite Hb, Hg. simpl. split.
    + intros ->. reflexivity.
    + intros Hne. apply Z.eqb_neq in Hne. rewrite Hne. reflexivity.
  - intros params st1 e Hb Hg. rewrite Hb, Hg. reflexivity.
  - intros st1 e Hb. rewrite Hb. reflexivity.
Qed.

Lemma C4_only_200_succeeds_witness :
  fst (_make_api_call Scenario.plain Scenario.calm
         (Scenario.row_of "Merlot" "1999") fresh) = Ok true /\
  fst (_make_api_call Scenario.plain Scenario.refusing
         (Scenario.row_of "Merlot" "1999") fresh) = Ok false /\
  fst (_make_api_call Scenario.plain Scenario.offline
         (Scenario.row_of "Merlot" "1999") fresh) = Ok false /\
  fst (_make_api_call Scenario.plain Scenario.calm
         (Scenario.short_row "1999") fresh) = Ok false.
Proof.
  split; [| split; [| split]].
  - destruct (C4_only_200_succeeds Scenario.plain Scenario.calm
                (Scenario.row_of "Merlot" "1999") fresh) as (_ & H & _ & _).
    eapply H; [reflexivity | reflexivity | reflexivity].
  - destruct (C4_only_200_succeeds Scenario.plain Scenario.refusing
                (Scenario.row_of "Merlot" "1999") fresh) as (_ & H & _ & _).
    eapply H; [reflexivity | reflexivity | discriminate].
  - destruct (C4_only_200_succeeds Scenario.plain Scenario.offline
                (Scenario.row_of "Merlot" "1999") fresh) as (_ & _ & H & _).
    eapply H; reflexivity.
  - destruct (C4_only_200_succeeds Scenario.plain Scenario.calm
                (Scenario.short_row "1999") fresh) as (_ & _ & _ & H).
    eapply H; reflexivity.
Defined.

(** C1 as stated fails: an exception raised while the request is sent (a
    timeout), or while it is built (a row without a name, on which
    [quote_plus] raises), is caught inside [_make_api_call]; the row is
    recorded once, as "Failed", and not as "Error". *)
Lemma C1_exception_gives_failed_not_error :
  fst (api_call_body Scenario.plain Scenario.offline
         (Scenario.row_of "Merlot" "1999") (snd (incr_total_rows fresh)))
  = Raise RequestException /\
  map Status
    (results (snd (process_row Scenario.plain Scenario.offline 2
                     (Scenario.row_of "Merlot" "1999") fresh)))
  = ["Failed"] /\
  fst (build_params Scenario.plain Scenario.calm
         (Scenario.short_row "1999") (snd (incr_total_rows fresh)))
  = Raise TypeError /\
  map Status
    (results (snd (process_row Scenario.plain Scenario.calm 2
                     (Scenario.short_row "1999") fresh)))
  = ["Failed"] /\
  "Failed" <> "Error".
Proof. vm_compute. repeat split; discriminate. Qed.

(** C1, amended.  In a run of [process_csv] (the store counts the rows
    before the current one), the iteration records exactly one result for
    the row, with its row number; its status is "Success" when the request
    was built, sent and answered with status code 200, and "Failed" when it
    was answered with any other status code, or when building or sending it
    raised an exception.  "Error" is what the handler of the iteration
    records last when the body of its [try] itself raises, which no
    exception caught inside [_make_api_call] makes it do. *)
Theorem C1_status_by_call_outcome self w row_num row st :
  (total_rows (stats st) = row_num - 2 ->
   exists r,
     results (snd (process_row self w row_num row st))
     = (results st ++ [r])%list /\
     Row r = row_num /\
     match build_params self w row (snd (incr_total_rows st)) with
     | (Ok params, st1) =>
         match session_get w (step st1) (base_url self) params with
         | Ok response =>
             Status r
             = if status_code response =? 200 then "Success" else "Failed"
         | Raise _ => Status r = "Failed"
         end
     | (Raise _, _) => Status r = "Failed"
     end) /\
  (forall e,
     fst (row_try self w row_num row (snd (incr_total_rows st))) = Raise e ->
     exists r,
       last (results (snd (process_row self w row_num row st))) = Some r /\
       Row r = row_num /\
       Status r = "Error").
Proof.
  split.
  - intros Hinv.
    destruct (process_row_counted self w row_num row st Hinv)
      as (r & st' & Erun & Hres & Hrow & Hstatus & _).
    exists r. rewrite Erun. split; [exact Hres |].
    split; [exact Hrow |].
    rewrite api_call_body_value in Hstatus.
    destruct (build_params self w row (snd (incr_total_rows st)))
      as [[params | e] st1]; [| exact Hstatus].
    destruct (session_get w (step st1) (base_url self) params)
      as [response | e]; [| exact Hstatus].
    rewrite Hstatus. unfold call_succeeded, status_of.
    destruct (status_code response =? 200); reflexivity.
  - intros e He.
    change (process_row self w row_num row st)
      with (try_except (row_try self w row_num row)
              (row_except self w row_num row) (snd (incr_total_rows st))).
    unfold try_except.
    destruct (row_try self w row_num row (snd (incr_total_rows st)))
      as [[[] | e'] s1]; simpl in He; [discriminate |].
    injection He as ->.
    unfold row_except, bind at 1, incr_failed_calls, bind at 1, get_stats,
      set_stats.
    unfold bind at 1, log, emit.
    match goal with
    | |- context [bind (_generate_mock_price self w ?v) _ ?s] =>
        destruct (returns_inv (_generate_mock_price self w v) s
                    (returns_generate_mock_price self w v))
          as (price & s2 & E2)
    end.
    unfold bind at 1. rewrite E2.
    unfold bind, strftime, bind, tick, ret, append_result. simpl.
    eexists. rewrite last_snoc. repeat split.
Qed.

Lemma C1_status_by_call_outcome_witness :
  (exists r,
     results (snd (process_row Scenario.plain Scenario.refusing 2
                     (Scenario.row_of "Merlot" "1999") fresh))
     = [r] /\
     Row r = 2 /\ Status r = "Failed") /\
  (exists r,
     last (results (snd (process_row Scenario.hasty Scenario.calm 2
                           (Scenario.row_of "Merlot" "1999")
                           Scenario.ahead)))
     = Some r /\
     Row r = 2 /\ Status r = "Error").
Proof.
  split.
  - destruct (C1_status_by_call_outcome Scenario.plain Scenario.refusing 2
                (Scenario.row_of "Merlot" "1999") fresh) as [H _].
    destruct (H eq_refl) as (r & Hres & Hrow & Hstatus).
    exists r. repeat split; assumption.
  - destruct (C1_status_by_call_outcome Scenario.hasty Scenario.calm 2
                (Scenario.row_of "Merlot" "1999") Scenario.ahead) as [_ H].
    apply (H ValueError). vm_compute. reflexivity.
Defined.

(* ===================================================================== *)
(** * The synthetic price                                                 *)
(* ===================================================================== *)








Lemma append_empty (s : string) : "" +:+ s = s.
Proof. reflexivity. Qed.

Lemma append_cons (c : ascii) (s t : string) :
  String c s +:+ t = String c (s +:+ t).
Proof. reflexivity. Qed.





(** ** Rounding to doubles *)














(** ** The perturbation and the price before printing *)








(** C6: with mock pricing disabled the generator answers "N/A" for every
    vintage, a year or not, and asks nothing of the world. *)
Theorem C6_disabled_gives_not_applicable self w vintage st :
  enable_mock_pricing self = false ->
  _generate_mock_price self w vintage st = (Ok "N/A", st).
Proof.
  intros Hen. unfold _generate_mock_price. rewrite Hen. reflexivity.
Qed.

Lemma C6_disabled_gives_not_applicable_witness :
  enable_mock_pricing Scenario.plain = false /\
  _generate_mock_price Scenario.plain Scenario.calm (PStr "2015") fresh
  = (Ok "N/A", fresh) /\
  _generate_mock_price Scenario.plain Scenario.calm PNone fresh
  = (Ok "N/A", fresh).
Proof.
  split; [reflexivity |].
  split; apply C6_disabled_gives_not_applicable; reflexivity.
Defined.

(* ===================================================================== *)
(** * The output path                                                     *)
(* ===================================================================== *)

Lemma replace_from_cons (old new : string) (c : ascii) (s : string) :
  replace_from old new 0 (String c s)
  = if startswith old (String c s)
    then new +:+ replace_from old new (Nat.pred (String.length old)) s
    else String c (replace_from old new 0 s).
Proof. reflexivity. Qed.

Lemma contains_cons (old : string) (c : ascii) (s : string) :
  contains old (String c s) = startswith old (String c s) || contains old s.
Proof. reflexivity. Qed.

(** Without an occurrence, [replace] changes nothing. *)
Lemma replace_absent (old new s : string) :
  contains old s = false -> replace old new s = s.
Proof.
  unfold replace. induction s as [| c s IH]; intros H; [reflexivity |].
  rewrite contains_cons in H. apply orb_false_elim in H as [Hhere Hlater].
  rewrite replace_from_cons, Hhere, IH by exact Hlater. reflexivity.
Qed.

Lemma startswith_app (p s t : string) :
  startswith p s = true -> startswith p (s +:+ t) = true.
Proof.
  revert s. induction p as [| a p IH]; intros s H; [reflexivity |].
  destruct s as [| b s]; [discriminate |].
  rewrite append_cons. simpl in *.
  apply andb_prop in H as [-> H]. apply IH, H.
Qed.

(** [".csv"] does not overlap itself: an occurrence cannot begin in a
    non-empty prefix that has none and run into the occurrence after it. *)
Lemma startswith_csv_before (c : ascii) (a rest : string) :
  startswith ".csv" (String c a) = false ->
  startswith ".csv" (String c a +:+ ".csv" +:+ rest) = false.
Proof.
  intros H. rewrite append_cons.
  change (Ascii.eqb "." c && startswith "csv" a = false) in H.
  change (Ascii.eqb "." c && startswith "csv" (a +:+ ".csv" +:+ rest)
          = false).
  destruct (Ascii.eqb "." c); [| reflexivity]. simpl in H. simpl andb.
  destruct a as [| c2 a]; [reflexivity |].
  rewrite append_cons.
  change (Ascii.eqb "c" c2 && startswith "sv" a = false) in H.
  change (Ascii.eqb "c" c2 && startswith "sv" (a +:+ ".csv" +:+ rest)
          = false).
  destruct (Ascii.eqb "c" c2); [| reflexivity]. simpl in H. simpl andb.
  destruct a as [| c3 a]; [reflexivity |].
  rewrite append_cons.
  change (Ascii.eqb "s" c3 && startswith "v" a = false) in H.
  change (Ascii.eqb "s" c3 && startswith "v" (a +:+ ".csv" +:+ rest)
          = false).
  destruct (Ascii.eqb "s" c3); [| reflexivity]. simpl in H. simpl andb.
  destruct a as [| c4 a]; [reflexivity |].
  rewrite append_cons.
  change (Ascii.eqb "v" c4 && true = false) in H.
  change (Ascii.eqb "v" c4 && true = false).
  exact H.
Qed.

(** The first occurrence is replaced and the rest is handled alike. *)
Lemma replace_csv_split (new a b : string) :
  contains ".csv" a = false ->
  replace ".csv" new (a +:+ ".csv" +:+ b)
  = a +:+ new +:+ replace ".csv" new b.
Proof.
  unfold replace. induction a as [| c a IH]; intros H.
  - rewrite !append_empty. reflexivity.
  - rewrite contains_cons in H. apply orb_false_elim in H as [Hhere Hlater].
    pose proof (startswith_csv_before c a b Hhere) as Hno.
    rewrite append_cons in Hno |- *.
    rewrite replace_from_cons, Hno, IH by exact Hlater.
    rewrite append_cons. reflexivity.
Qed.

Lemma startswith_split (p s : string) :
  startswith p s = true -> exists t, s = p +:+ t.
Proof.
  revert s. induction p as [| a p IH]; intros s H.
  - exists s. reflexivity.
  - destruct s as [| b s]; [discriminate |]. simpl in H.
    apply andb_prop in H as [Hab H].
    apply Ascii.eqb_eq in Hab as ->.
    destruct (IH s H) as [t ->]. exists t. reflexivity.
Qed.

(** A path that contains [".csv"] splits at its first occurrence. *)
Lemma contains_csv_split (p : string) :
  contains ".csv" p = true ->
  exists a b, p = a +:+ ".csv" +:+ b /\ contains ".csv" a = false.
Proof.
  induction p as [| c p IH]; intros H; [discriminate |].
  rewrite contains_cons in H.
  destruct (startswith ".csv" (String c p)) eqn:Hhere.
  - destruct (startswith_split _ _ Hhere) as [b ->].
    exists "", b. split; reflexivity.
  - simpl in H. destruct (IH H) as (a & b & -> & Ha).
    exists (String c a), b. split; [reflexivity |].
    rewrite contains_cons, Ha, orb_false_r.
    destruct (startswith ".csv" (String c a)) eqn:E; [| reflexivity].
    apply (startswith_app _ _ (".csv" +:+ b)) in E.
    rewrite append_cons in E. congruence.
Qed.

Lemma append_inv_head (a s t : string) : a +:+ s = a +:+ t -> s = t.
Proof.
  induction a as [| c a IH]; intros H; [exact H |].
  rewrite !append_cons in H. injection H as H. apply IH, H.
Qed.

(** For a path that does contain [".csv"], the dated path is another path
    than the plain results path. *)
Lemma dated_results_path_differs (timestamp p : string) :
  contains ".csv" p = true ->
  dated_results_path timestamp p <> results_path p.
Proof.
  intros H. destruct (contains_csv_split p H) as (a & b & -> & Ha).
  unfold dated_results_path, results_path.
  rewrite !replace_csv_split by exact Ha.
  intros E. apply append_inv_head in E.
  rewrite !append_cons in E. discriminate.
Qed.

(** The operator's answer, as the script reads it. *)
Lemma choose_output_path_value w csv_file_path st :
  fst (choose_output_path w csv_file_path st)
  = if path_exists w (results_path csv_file_path)
    then
      match console_input w with
      | Ok answer =>
          if str_in (lower (strip answer)) ["y"; "yes"]
          then Ok (results_path csv_file_path)
          else Ok (dated_results_path (datetime_now w) csv_file_path)
      | Raise e => Raise e
      end
    else Ok (results_path csv_file_path).
Proof.
  unfold choose_output_path.
  destruct (path_exists w (results_path csv_file_path)); [| reflexivity].
  unfold bind, emit, lift. cbv beta iota.
  destruct (console_input w) as [answer | e]; [| reflexivity].
  destruct (str_in (lower (strip answer)) ["y"; "yes"]); reflexivity.
Qed.

(** C9, at an input path without [".csv"] in it: the computed results
    path exists (it is the input itself), the operator is asked and answers
    "n", and the path chosen is nevertheless the original results path,
    with no timestamp in it; the run then writes there. *)
Theorem C9_decline_still_overwrites :
  contains ".csv" "wines.CSV" = false /\
  path_exists Scenario.declining (results_path "wines.CSV") = true /\
  console_input Scenario.declining = Ok "n" /\
  str_in (lower (strip "n")) ["y"; "yes"] = false /\
  fst (choose_output_path Scenario.declining "wines.CSV" fresh)
  = Ok (results_path "wines.CSV") /\
  results_path "wines.CSV" = "wines.CSV" /\
  last (trace (snd (process_csv Scenario.plain Scenario.declining
                      "wines.CSV" fresh)))
  = Some (EvLog INFO (MsgResultsWritten "wines.CSV")).
Proof. vm_compute. repeat split. Qed.

(** C10: the results path is the input path with every [".csv"] replaced
    by ["_results.csv"].  A path without [".csv"] is its own results path
    and its own dated path, so whatever the operator answers the writer is
    directed to the input file; and in a path with [".csv"] the first
    occurrence is replaced and what follows it is treated the same way, so
    every occurrence is. *)
Theorem C10_results_path_by_substitution :
  (forall p,
     contains ".csv" p = false ->
     results_path p = p /\
     (forall timestamp, dated_results_path timestamp p = p) /\
     (forall w st q, fst (choose_output_path w p st) = Ok q -> q = p)) /\
  (forall a b,
     contains ".csv" a = false ->
     results_path (a +:+ ".csv" +:+ b)
     = a +:+ "_results.csv" +:+ results_path b).
Proof.
  split.
  - intros p Hp.
    assert (H1 : results_path p = p) by (apply replace_absent, Hp).
    assert (H2 : forall timestamp, dated_results_path timestamp p = p)
      by (intros timestamp; apply replace_absent, Hp).
    split; [exact H1 |]. split; [exact H2 |].
    intros w st q Hq. rewrite choose_output_path_value, H1, H2 in Hq.
    destruct (path_exists w p); [| congruence].
    destruct (console_input w) as [answer | e]; [| discriminate].
    destruct (str_in (lower (strip answer)) ["y"; "yes"]); congruence.
  - intros a b Ha. apply replace_csv_split, Ha.
Qed.

Lemma C10_results_path_by_substitution_witness :
  (contains ".csv" "wines.txt" = false /\
   results_path "wines.txt" = "wines.txt" /\
   dated_results_path "20240501_120000" "wines.txt" = "wines.txt" /\
   fst (choose_output_path Scenario.declining "wines.txt" fresh)
   = Ok (dated_results_path "20240501_120000" "wines.txt") /\
   dated_results_path "20240501_120000" "wines.txt" = "wines.txt") /\
  (contains ".csv" "old" = false /\
   results_path "old.csv.bak.csv" = "old_results.csv.bak_results.csv").
Proof.
  destruct C10_results_path_by_substitution as [Hnone Hsome].
  split.
  - destruct (Hnone "wines.txt" eq_refl) as (H1 & H2 & H3).
    split; [reflexivity |]. split; [exact H1 |]. split; [apply H2 |].
    split; [reflexivity |].
    apply (H3 Scenario.declining fresh). reflexivity.
  - split; [reflexivity |].
    change "old.csv.bak.csv" with ("old" +:+ ".csv" +:+ ".bak.csv").
    rewrite (Hsome "old" ".bak.csv" eq_refl). reflexivity.
Defined.

(* ===================================================================== *)
(** * The statistics and the results of a run                             *)
(* ===================================================================== *)

Lemma generate_mock_price_disabled self w vintage st :
  enable_mock_pricing self = false ->
  _generate_mock_price self w vintage st = (Ok "N/A", st).
Proof.
  intros Hen. unfold _generate_mock_price. rewrite Hen. reflexivity.
Qed.

(** The [try] body again, with all that it records. *)
Lemma row_try_record self w row_num row st :
  total_rows (stats st) = row_num - 1 ->
  exists r st',
    row_try self w row_num row st = (Ok tt, st') /\
    results st' = (results st ++ [r])%list /\
    describes self row_num row r /\
    stats st' = record_call (String.eqb (Status r) "Success") (stats st).
Proof.
  intros Hinv. unfold row_try.
  pose proof (quiet_make_api_call self w row st) as (Hs1 & Hr1 & _).
  destruct (returns_inv (_make_api_call self w row) st
              (returns_make_api_call self w row)) as (success & s1 & E1).
  rewrite E1 in Hs1, Hr1. simpl in Hs1, Hr1.
  pose proof (quiet_generate_mock_price self w (vintage_of row) s1)
    as (Hs2 & Hr2 & _).
  assert (Hna : enable_mock_pricing self = false ->
                fst (_generate_mock_price self w (vintage_of row) s1)
                = Ok "N/A").
  { intros Hen. rewrite generate_mock_price_disabled by exact Hen.
    reflexivity. }
  destruct (returns_inv (_generate_mock_price self w (vintage_of row)) s1
              (returns_generate_mock_price self w (vintage_of row)))
    as (price & s2 & E2).
  rewrite E2 in Hs2, Hr2, Hna. simpl in Hs2, Hr2, Hna.
  unfold bind at 1. rewrite E1.
  unfold bind at 1. rewrite E2.
  assert (Hlt : (row_num <? total_rows (stats st)) = false)
    by (apply Z.ltb_ge; lia).
  exists {| Row := row_num; Wine_Name := wine_name_of row;
            Vintage := vintage_of row; Status := status_of success;
            Mock_Price := price; Timestamp := time_strftime w (step s2) |}.
  destruct success; unfold status_of;
    unfold bind, strftime, tick, ret, append_result, incr_successful_calls,
      incr_failed_calls, get_stats, set_stats, log, emit, bind; simpl;
    rewrite Hs2, Hs1, Hlt; eexists; (split; [reflexivity |]); simpl;
    rewrite Hr2, Hr1; (split; [reflexivity |]);
    (split; [| reflexivity]);
    unfold describes; simpl;
    do 3 (split; [reflexivity |]); (split; [auto |]);
    intros Hen; specialize (Hna Hen); congruence.
Qed.

Lemma process_row_record self w row_num row st :
  total_rows (stats st) = row_num - 2 ->
  exists r st',
    process_row self w row_num row st = (Ok tt, st') /\
    results st' = (results st ++ [r])%list /\
    describes self row_num row r /\
    stats st'
    = record_call (String.eqb (Status r) "Success")
        (stats (snd (incr_total_rows st))).
Proof.
  intros Hinv.
  set (st0 := snd (incr_total_rows st)).
  assert (H0 : total_rows (stats st0) = row_num - 1) by (simpl; lia).
  destruct (row_try_record self w row_num row st0 H0)
    as (r & st' & Erun & Hres & Hdesc & Hstats).
  exists r, st'.
  change (process_row self w row_num row st)
    with (try_except (row_try self w row_num row)
            (row_except self w row_num row) st0).
  unfold try_except. rewrite Erun.
  split; [reflexivity |]. split; [exact Hres |].
  split; [exact Hdesc | exact Hstats].
Qed.

Lemma count_status_app status (rs1 rs2 : list ProcessingResult) :
  count_status status (rs1 ++ rs2)
  = count_status status rs1 + count_status status rs2.
Proof. induction rs1 as [| r rs1 IH]; simpl; lia. Qed.

(** The loop, with the tally: the counters grow by the number of results
    of each status. *)
Lemma for_rows_record self w rows :
  forall row_num st,
    total_rows (stats st) = row_num - 2 ->
    exists rs st',
      for_rows self w rows row_num st = (Ok tt, st') /\
      results st' = (results st ++ rs)%list /\
      described_from self row_num rows rs /\
      total_rows (stats st') = total_rows (stats st) + Z.of_nat (length rows)
      /\
      successful_calls (stats st')
      = successful_calls (stats st) + count_status "Success" rs /\
      failed_calls (stats st')
      = failed_calls (stats st) + count_status "Failed" rs /\
      count_status "Success" rs + count_status "Failed" rs
      = Z.of_nat (length rows).
Proof.
  induction rows as [| row rest IH]; intros row_num st Hinv.
  - exists [], st. simpl. rewrite app_nil_r. repeat split; lia.
  - destruct (process_row_record self w row_num row st Hinv)
      as (r & s1 & Erun & Hres & Hdesc & Hstats).
    assert (H1 : total_rows (stats s1) = row_num + 1 - 2).
    { rewrite Hstats. destruct (Status r =? "Success")%string; simpl; lia. }
    destruct (IH (row_num + 1) s1 H1)
      as (rs & s2 & Erun2 & Hres2 & Hdesc2 & Htot & Hok & Hko & Hsum).
    exists (r :: rs), s2. simpl for_rows. unfold bind. rewrite Erun, Erun2.
    split; [reflexivity |].
    split; [rewrite Hres2, Hres, <- app_assoc; reflexivity |].
    split; [split; assumption |].
    destruct Hdesc as (_ & _ & _ & Hst & _).
    rewrite Htot, Hok, Hko, Hstats.
    change (count_status ?s (r :: rs))
      with ((if (Status r =? s)%string then 1 else 0) + count_status s rs).
    destruct Hst as [-> | ->]; simpl; repeat split; lia.
Qed.

(** The outer [try], once the file is open and has a header, in terms of
    its loop. *)
Lemma read_and_process_after_loop self w csv_file_path st tbl names s1 :
  open_csv w csv_file_path = Ok tbl ->
  fieldnames tbl = Some names ->
  for_rows self w (rows tbl) 2
    {| stats := stats st; results := results st; step := step st;
       trace := (trace st ++ [EvLog INFO (MsgColumnCount (length names))])
                ++ [EvLog INFO (MsgColumns names)] |}
  = (Ok tt, s1) ->
  read_and_process self w csv_file_path st
  = match read_error tbl with
    | None => (Ok tt, s1)
    | Some e =>
        (Raise e,
         {| stats := stats s1; results := results s1; step := step s1;
            trace :=
              trace s1
              ++ [EvLog ERROR
                    (match e with
                     | FileNotFoundError => MsgFileNotFound csv_file_path
                     | _ => MsgReadError e
                     end)] |})
    end.
Proof.
  intros Hopen Hnames Hloop.
  unfold read_and_process, try_except, bind, lift. rewrite Hopen, Hnames.
  unfold ret at 1, log, emit. cbv beta iota. simpl trace. simpl stats.
  simpl results. simpl step. rewrite Hloop.
  destruct (read_error tbl) as [e |]; [| reflexivity].
  destruct e; reflexivity.
Qed.

(** [process_csv] leaves in the store the [stats] of its outer [try]. *)
Lemma process_csv_stats self w csv_file_path st :
  stats (snd (process_csv self w csv_file_path st))
  = stats (snd (read_and_process self w csv_file_path (reset st))).
Proof.
  rewrite process_csv_unfold. unfold bind, get_results, get_stats.
  destruct (read_and_process self w csv_file_path (reset st))
    as [[[] | e] s1]; [| reflexivity].
  pose proof (quiet_write_results_csv self w (results s1) csv_file_path s1)
    as (Hs & _ & _).
  destruct (_write_results_csv self w (results s1) csv_file_path s1)
    as [[[] | e] s2]; simpl in *; exact Hs.
Qed.

(** What a run leaves in the store once the file is open and has a
    header. *)
Lemma process_csv_record self w csv_file_path st tbl names :
  open_csv w csv_file_path = Ok tbl ->
  fieldnames tbl = Some names ->
  let st' := snd (process_csv self w csv_file_path st) in
  described_from self 2 (rows tbl) (results st') /\
  total_rows (stats st') = Z.of_nat (length (rows tbl)) /\
  successful_calls (stats st') = count_status "Success" (results st') /\
  failed_calls (stats st') = count_status "Failed" (results st') /\
  successful_calls (stats st') + failed_calls (stats st')
  = total_rows (stats st').
Proof.
  intros Hopen Hnames st'. subst st'.
  rewrite process_csv_stats, process_csv_results.
  set (s0 := {| stats := stats (reset st); results := results (reset st);
                step := step (reset st);
                trace := (trace (reset st)
                          ++ [EvLog INFO (MsgColumnCount (length names))])
                         ++ [EvLog INFO (MsgColumns names)] |}).
  destruct (for_rows_record self w (rows tbl) 2 s0 eq_refl)
    as (rs & s1 & Erun & Hres & Hdesc & Htot & Hok & Hko & Hsum).
  rewrite (read_and_process_after_loop self w csv_file_path (reset st)
             tbl names s1 Hopen Hnames Erun).
  assert (Hfin : forall s,
             stats s = stats s1 -> results s = results s1 ->
             described_from self 2 (rows tbl) (results s) /\
             total_rows (stats s) = Z.of_nat (length (rows tbl)) /\
             successful_calls (stats s) = count_status "Success" (results s)
             /\
             failed_calls (stats s) = count_status "Failed" (results s) /\
             successful_calls (stats s) + failed_calls (stats s)
             = total_rows (stats s)).
  { intros s Hs Hr. rewrite Hs, Hr, Hres, Htot, Hok, Hko.
    simpl. repeat split; try assumption; lia. }
  destruct (read_error tbl) as [e |]; cbn [snd]; apply Hfin; reflexivity.
Qed.

(** X1.  For a run whose input opens to a table with a header:
    [total_rows] is the number of data rows, [successful_calls] and
    [failed_calls] count the results of each status, and together they
    account for every row.  The same holds of the statistics returned. *)
Theorem stats_tally_with_results self w csv_file_path st tbl names :
  open_csv w csv_file_path = Ok tbl ->
  fieldnames tbl = Some names ->
  (let st' := snd (process_csv self w csv_file_path st) in
   total_rows (stats st') = Z.of_nat (length (rows tbl)) /\
   successful_calls (stats st') = count_status "Success" (results st') /\
   failed_calls (stats st') = count_status "Failed" (results st') /\
   successful_calls (stats st') + failed_calls (stats st')
   = total_rows (stats st')) /\
  (forall s,
     fst (process_csv self w csv_file_path st) = Ok s ->
     total_rows s = Z.of_nat (length (rows tbl)) /\
     successful_calls s + failed_calls s = total_rows s).
Proof.
  intros Hopen Hnames.
  destruct (process_csv_record self w csv_file_path st tbl names Hopen Hnames)
    as (_ & Htot & Hok & Hko & Hsum).
  split; [repeat split; assumption |].
  intros s Hs. apply process_csv_value in Hs. subst s. split; assumption.
Qed.

Lemma stats_tally_with_results_witness :
  (let st' := snd (process_csv Scenario.plain Scenario.flaky "wines.csv"
                     fresh) in
   total_rows (stats st') = 3 /\
   successful_calls (stats st') = count_status "Success" (results st') /\
   failed_calls (stats st') = count_status "Failed" (results st') /\
   successful_calls (stats st') + failed_calls (stats st')
   = total_rows (stats st')) /\
  total_rows {| total_rows := 3; successful_calls := 2; failed_calls := 1;
                skipped_rows := 0 |} = 3 /\
  2 + 1 = 3.
Proof.
  destruct (stats_tally_with_results Scenario.plain Scenario.flaky
              "wines.csv" fresh Scenario.three_rows ["Wine Name"; "Vintage"]
              eq_refl eq_refl) as [H1 H2].
  split; [exact H1 |].
  apply (H2 {| total_rows := 3; successful_calls := 2; failed_calls := 1;
               skipped_rows := 0 |}).
  vm_compute. reflexivity.
Defined.

(** X2.  The results of a run follow the rows of the input, in order: each
    carries the number of its row, the name and the vintage the loop reads
    from it, the status "Success" or "Failed", and "N/A" for a price when
    mock pricing is off. *)
Theorem results_describe_rows self w csv_file_path st tbl names :
  open_csv w csv_file_path = Ok tbl ->
  fieldnames tbl = Some names ->
  described_from self 2 (rows tbl)
    (results (snd (process_csv self w csv_file_path st))).
Proof.
  intros Hopen Hnames.
  apply (process_csv_record self w csv_file_path st tbl names Hopen Hnames).
Qed.

Lemma results_describe_rows_witness :
  described_from Scenario.plain 2 (rows Scenario.three_rows)
    (results (snd (process_csv Scenario.plain Scenario.flaky "wines.csv"
                     fresh))).
Proof.
  apply (results_describe_rows Scenario.plain Scenario.flaky "wines.csv"
           fresh Scenario.three_rows ["Wine Name"; "Vintage"]);
    reflexivity.
Defined.

(* ===================================================================== *)
(** * The fields of a row                                                 *)
(* ===================================================================== *)

(** The loop over [field_mapping]: the later entry for [winename] wins. *)
Lemma map_fields_value (row : CsvRow) st :
  exists mapped st',
    map_fields row field_mapping ∅ st = (Ok mapped, st') /\
    dict_get mapped "winename" (PStr "") = name_sent row /\
    dict_get mapped "vintage" (PStr "") = dict_get row "Vintage" (PStr "").
Proof.
  unfold field_mapping, map_fields, name_sent, dict_get.
  destruct (row !! "Wine Name") as [n |];
    destruct (row !! BOM_Wine_Name) as [b |];
    destruct (row !! "Vintage") as [v |];
    unfold bind, log, emit, ret; cbv beta iota;
    eexists _, _; (split; [reflexivity |]); split; reflexivity.
Qed.

(** What request construction gives: the escaped name and the vintage, or
    the error of [quote_plus]. *)
Lemma build_params_outcome self w row st :
  match quote_plus (name_sent row) with
  | Ok escaped =>
      exists params st',
        build_params self w row st = (Ok params, st') /\
        params_get "winename" params = Some (PStr escaped) /\
        params_get "vintage" params
        = Some (dict_get row "Vintage" (PStr "")) /\
        fixed_params self params
  | Raise e => exists st', build_params self w row st = (Raise e, st')
  end.
Proof.
  destruct (map_fields_value row st) as (mapped & s1 & E1 & Hname & Hvin).
  set (s3 := {| stats := stats s1; results := results s1; step := step s1;
                trace := (trace s1 ++ [EvLog DEBUG (MsgOriginalRow row)])
                         ++ [EvLog DEBUG (MsgMappedRow mapped)] |}).
  destruct (returns_inv
              (_generate_mock_price self w
                 (dict_get row "Vintage" (PStr ""))) s3
              (returns_generate_mock_price self w _))
    as (price & s4 & E2).
  assert (E : build_params self w row st
              = match quote_plus (name_sent row) with
                | Ok escaped =>
                    if enable_mock_pricing self
                    then
                      (Ok ([("api_key", PStr (api_key self));
                            ("winename", PStr escaped);
                            ("vintage", dict_get row "Vintage" (PStr ""));
                            ("currencycode", PStr "USD");
                            ("location", PStr "MA");
                            ("state", PStr "MA");
                            ("offer_type", PStr "sale");
                            ("price", PStr price);
                            ("country", PStr "USA")]), s4)
                    else
                      (Ok ([("api_key", PStr (api_key self));
                            ("winename", PStr escaped);
                            ("vintage", dict_get row "Vintage" (PStr ""));
                            ("currencycode", PStr "USD");
                            ("location", PStr "MA");
                            ("state", PStr "MA");
                            ("offer_type", PStr "sale");
                            ("country", PStr "USA")]), s3)
                | Raise e => (Raise e, s3)
                end).
  { unfold build_params, bind. rewrite E1.
    unfold log, emit, lift. cbv beta iota. rewrite Hname, Hvin.
    simpl stats. simpl results. simpl step. simpl trace. fold s3.
    destruct (quote_plus (name_sent row)) as [escaped | e]; [| reflexivity].
    destruct (enable_mock_pricing self); [| reflexivity].
    rewrite E2. reflexivity. }
  rewrite E.
  destruct (quote_plus (name_sent row)) as [escaped | e];
    [| eexists; reflexivity].
  unfold fixed_params, param_names.
  destruct (enable_mock_pricing self);
    eexists _, _; (split; [reflexivity |]); repeat split.
Qed.

(** X3.  The name and the vintage of a row, as the request carries them and as
    the result records them.  The request prefers the column whose header
    begins with a byte-order mark, then "Wine Name", then the empty string;
    the result prefers "Wine Name", then the marked column, then "Unknown".
    The vintage is that of the "Vintage" column for both, with the empty
    string and "Unknown" in its absence.  A name that is [None] makes
    request construction raise. *)
Theorem names_sent_and_recorded self w row st :
  wine_name_of row = name_recorded row /\
  vintage_of row = dict_get row "Vintage" (PStr "Unknown") /\
  match quote_plus (name_sent row) with
  | Ok escaped =>
      exists params st',
        build_params self w row st = (Ok params, st') /\
        params_get "winename" params = Some (PStr escaped) /\
        params_get "vintage" params
        = Some (dict_get row "Vintage" (PStr ""))
  | Raise e => fst (build_params self w row st) = Raise e
  end.
Proof.
  split; [| split; [cbv beta iota delta [Mock_Price]; reflexivity |]].
  - unfold wine_name_of, name_recorded, dict_get.
    destruct (row !! "Wine Name"); reflexivity.
  - pose proof (build_params_outcome self w row st) as H.
    destruct (quote_plus (name_sent row)) as [escaped | e].
    + destruct H as (params & st' & E & Hn & Hv & _). eauto.
    + destruct H as (st' & E). rewrite E. reflexivity.
Qed.

(* ===================================================================== *)
(** * What a run adds to the trace                                        *)
(* ===================================================================== *)

Section Extends.
Variable P : event -> Prop.

Lemma extends_refl st : extends P st st.
Proof. exists []. rewrite app_nil_r. split; [reflexivity | constructor]. Qed.

Lemma extends_trans a b c : extends P a b -> extends P b c -> extends P a c.
Proof.
  intros (n1 & E1 & F1) (n2 & E2 & F2). exists (n1 ++ n2)%list.
  rewrite E2, E1, app_assoc. split; [reflexivity |].
  apply Forall_app. split; assumption.
Qed.

Lemma extends_emit e : P e -> keeps (extends P) (emit e).
Proof.
  intros He st. exists [e]. split; [reflexivity |].
  constructor; [exact He | constructor].
Qed.

(** A computation that leaves the trace alone. *)
Lemma extends_silent {A} (m : M A) :
  (forall st, trace (snd (m st)) = trace st) -> keeps (extends P) m.
Proof.
  intros H st. exists []. rewrite app_nil_r, H.
  split; [reflexivity | constructor].
Qed.
End Extends.

Lemma count_events_app f (t1 t2 : list event) :
  count_events f (t1 ++ t2) = (count_events f t1 + count_events f t2)%nat.
Proof. induction t1 as [| e t1 IH]; simpl; [reflexivity | lia]. Qed.

(** Events that [f] does not count leave the count alone. *)
Lemma count_events_extends f st st' :
  extends (fun e => f e = false) st st' ->
  count_events f (trace st') = count_events f (trace st).
Proof.
  intros (new & E & F). rewrite E, count_events_app.
  assert (H : count_events f new = 0%nat).
  { clear E. induction F as [| e new He _ IH]; simpl; [reflexivity |].
    rewrite He, IH. reflexivity. }
  lia.
Qed.

Ltac ext_step P :=
  first
    [ apply (keeps_ret (extends P) (extends_refl P))
    | apply (keeps_raise (extends P) (extends_refl P))
    | apply (keeps_lift (extends P) (extends_refl P))
    | apply (extends_silent P); intro; reflexivity
    | apply (keeps_bind (extends P) (extends_trans P))
    | apply (keeps_try (extends P) (extends_trans P))
    | match goal with
      | |- keeps _ (if ?b then _ else _) => destruct b
      | |- keeps _ (match ?x with _ => _ end) => destruct x
      end
    | intro ].

(** ** The loop *)

Section LoopTrace.
Variable self : Processor.
Variable w : World.
Variable P : event -> Prop.
Hypothesis P_log : forall l m, P (EvLog l m).
Hypothesis P_sleep : forall d, P (EvSleep d).
Hypothesis P_get :
  forall params, fixed_params self params -> P (EvGet (base_url self) params 30).

Lemma ext_log l m : keeps (extends P) (log l m).
Proof. apply extends_emit, P_log. Qed.

Lemma ext_generate_mock_price vintage :
  keeps (extends P) (_generate_mock_price self w vintage).
Proof.
  apply extends_silent. intros st.
  pose proof (returns_generate_mock_price self w vintage st) as [p Hp].
  unfold _generate_mock_price in *.
  destruct (negb (enable_mock_pricing self)); [reflexivity |].
  unfold try_except, bind, lift, random_uniform, tick, ret, bind.
  destruct (int vintage) as [year | e]; [reflexivity |].
  destruct e; reflexivity.
Qed.

Lemma ext_map_fields row fm mapped :
  keeps (extends P) (map_fields row fm mapped).
Proof.
  revert mapped. induction fm as [| [csv_field api_field] fm IH];
    intros mapped; simpl.
  - ext_step P.
  - destruct (row !! csv_field); [| apply IH].
    apply (keeps_bind (extends P) (extends_trans P));
      [apply ext_log | intros _; apply IH].
Qed.

Lemma ext_build_params row : keeps (extends P) (build_params self w row).
Proof.
  unfold build_params.
  apply (keeps_bind (extends P) (extends_trans P));
    [apply ext_map_fields | intros mapped].
  do 2 (apply (keeps_bind (extends P) (extends_trans P));
        [apply ext_log | intros _]).
  apply (keeps_bind (extends P) (extends_trans P));
    [ext_step P | intros winename].
  apply (keeps_bind (extends P) (extends_trans P)); [| repeat ext_step P].
  destruct (enable_mock_pricing self); [| ext_step P].
  apply (keeps_bind (extends P) (extends_trans P));
    [apply ext_generate_mock_price | repeat ext_step P].
Qed.

Lemma ext_send_request params :
  fixed_params self params -> keeps (extends P) (send_request self w params).
Proof.
  intros Hfixed. unfold send_request, http_get.
  apply (keeps_bind (extends P) (extends_trans P)).
  - apply (keeps_bind (extends P) (extends_trans P)); [ext_step P | intros k].
    apply (keeps_bind (extends P) (extends_trans P));
      [apply extends_emit, P_get, Hfixed | repeat ext_step P].
  - intros response. destruct (status_code response =? 200);
      (apply (keeps_bind (extends P) (extends_trans P));
       [apply ext_log | repeat ext_step P]).
Qed.

Lemma ext_api_call_body row : keeps (extends P) (api_call_body self w row).
Proof.
  intros st. unfold api_call_body, bind.
  pose proof (ext_build_params row st) as H1.
  pose proof (build_params_outcome self w row st) as H2.
  destruct (quote_plus (name_sent row)) as [escaped | e].
  - destruct H2 as (params & s1 & E & _ & _ & Hfixed).
    rewrite E in H1 |- *. simpl in H1.
    eapply extends_trans; [exact H1 | apply ext_send_request, Hfixed].
  - destruct H2 as (s1 & E). rewrite E in H1 |- *. exact H1.
Qed.

Lemma ext_make_api_call row : keeps (extends P) (_make_api_call self w row).
Proof.
  unfold _make_api_call.
  apply (keeps_try (extends P) (extends_trans P));
    [apply ext_api_call_body | intros e].
  destruct e;
    (apply (keeps_bind (extends P) (extends_trans P));
     [apply ext_log | repeat ext_step P]).
Qed.

Lemma ext_strftime : keeps (extends P) (strftime w).
Proof. unfold strftime. repeat ext_step P. Qed.

Lemma ext_sleep d : keeps (extends P) (time_sleep d).
Proof.
  unfold time_sleep. destruct (Qlt_le_dec d 0); [ext_step P |].
  apply extends_emit, P_sleep.
Qed.

Lemma ext_row_try row_num row : keeps (extends P) (row_try self w row_num row).
Proof.
  unfold row_try.
  apply (keeps_bind (extends P) (extends_trans P));
    [apply ext_make_api_call | intros success].
  apply (keeps_bind (extends P) (extends_trans P));
    [apply ext_generate_mock_price | intros price].
  apply (keeps_bind (extends P) (extends_trans P));
    [apply ext_strftime | intros now].
  apply (keeps_bind (extends P) (extends_trans P)); [ext_step P | intros _].
  apply (keeps_bind (extends P) (extends_trans P)).
  - destruct success;
      (apply (keeps_bind (extends P) (extends_trans P));
       [ext_step P | intros _; apply ext_log]).
  - intros _. apply (keeps_bind (extends P) (extends_trans P));
      [ext_step P | intros s].
    destruct (row_num <? total_rows s); [apply ext_sleep | ext_step P].
Qed.

Lemma ext_row_except row_num row e :
  keeps (extends P) (row_except self w row_num row e).
Proof.
  unfold row_except.
  apply (keeps_bind (extends P) (extends_trans P)); [ext_step P | intros _].
  apply (keeps_bind (extends P) (extends_trans P)); [apply ext_log | intros _].
  apply (keeps_bind (extends P) (extends_trans P));
    [apply ext_generate_mock_price | intros price].
  apply (keeps_bind (extends P) (extends_trans P));
    [apply ext_strftime | intros now].
  ext_step P.
Qed.

Lemma ext_process_row row_num row :
  keeps (extends P) (process_row self w row_num row).
Proof.
  unfold process_row.
  apply (keeps_bind (extends P) (extends_trans P)); [ext_step P | intros _].
  apply (keeps_try (extends P) (extends_trans P));
    [apply ext_row_try | apply ext_row_except].
Qed.

Lemma ext_for_rows rows :
  forall row_num, keeps (extends P) (for_rows self w rows row_num).
Proof.
  induction rows as [| row rest IH]; intros row_num; simpl.
  - ext_step P.
  - apply (keeps_bind (extends P) (extends_trans P));
      [apply ext_process_row | intros _; apply IH].
Qed.

Lemma ext_read_and_process csv_file_path :
  keeps (extends P) (read_and_process self w csv_file_path).
Proof.
  unfold read_and_process.
  apply (keeps_try (extends P) (extends_trans P)).
  - apply (keeps_bind (extends P) (extends_trans P)); [ext_step P | intros tbl].
    apply (keeps_bind (extends P) (extends_trans P));
      [repeat ext_step P | intros names].
    do 2 (apply (keeps_bind (extends P) (extends_trans P));
          [apply ext_log | intros _]).
    apply (keeps_bind (extends P) (extends_trans P));
      [apply ext_for_rows | intros _; repeat ext_step P].
  - intros e. destruct e;
      (apply (keeps_bind (extends P) (extends_trans P));
       [apply ext_log | repeat ext_step P]).
Qed.
End LoopTrace.

(** ** The writer and the whole run *)

Section RunTrace.
Variable P : event -> Prop.
Hypothesis P_other : forall e, is_get e = false -> P e.

Lemma ext_other e : is_get e = false -> keeps (extends P) (emit e).
Proof. intros He. apply extends_emit, P_other, He. Qed.

Lemma ext_choose_output_path w csv_file_path :
  keeps (extends P) (choose_output_path w csv_file_path).
Proof.
  unfold choose_output_path.
  destruct (path_exists w (results_path csv_file_path)); [| ext_step P].
  do 2 (apply (keeps_bind (extends P) (extends_trans P));
        [apply ext_other; reflexivity | intros _]).
  apply (keeps_bind (extends P) (extends_trans P)); [ext_step P | intros a].
  destruct (negb (str_in (lower (strip a)) ["y"; "yes"])); [| ext_step P].
  apply (keeps_bind (extends P) (extends_trans P));
    [apply ext_other; reflexivity | repeat ext_step P].
Qed.

Lemma ext_write_results_csv self w rs csv_file_path :
  keeps (extends P) (_write_results_csv self w rs csv_file_path).
Proof.
  unfold _write_results_csv.
  apply (keeps_bind (extends P) (extends_trans P));
    [apply ext_choose_output_path | intros path].
  apply (keeps_try (extends P) (extends_trans P)).
  - unfold write_table.
    apply (keeps_bind (extends P) (extends_trans P)); [ext_step P | intros _].
    apply (keeps_bind (extends P) (extends_trans P));
      [apply ext_other; reflexivity | intros _].
    apply ext_other. reflexivity.
  - intros e. apply ext_other. reflexivity.
Qed.

(** A whole run, when [P] also holds of the requests of [self]. *)
Lemma ext_process_csv self w csv_file_path st :
  (forall params,
     fixed_params self params -> P (EvGet (base_url self) params 30)) ->
  extends P st (snd (process_csv self w csv_file_path st)).
Proof.
  intros P_get. rewrite process_csv_unfold.
  assert (H : keeps (extends P)
                (let* _ := read_and_process self w csv_file_path in
                 let* rs := get_results in
                 let* _ := _write_results_csv self w rs csv_file_path in
                 get_stats)).
  { apply (keeps_bind (extends P) (extends_trans P)).
    - apply ext_read_and_process; [intros; apply P_other; reflexivity ..
                                  | exact P_get].
    - intros _. apply (keeps_bind (extends P) (extends_trans P));
        [ext_step P | intros rs].
      apply (keeps_bind (extends P) (extends_trans P));
        [apply ext_write_results_csv | intros _; ext_step P]. }
  exact (H (reset st)).
Qed.
End RunTrace.

(** X4.  Every request of a run goes to the endpoint of the processor, with a
    timeout of 30 seconds, and carries the parameters in their fixed order:
    the key of the processor, the name and vintage, the constants USD, MA,
    MA, sale, the price exactly when mock pricing is on, and USA. *)
Theorem requests_are_well_formed self w csv_file_path st :
  exists new,
    trace (snd (process_csv self w csv_file_path st))
    = (trace st ++ new)%list /\
    Forall (request_of self) new.
Proof.
  apply (ext_process_csv (request_of self)).
  - intros e He. destruct e; try exact I. discriminate.
  - intros params Hfixed. repeat split; apply Hfixed.
Qed.

(* ===================================================================== *)
(** * One request per row                                                 *)
(* ===================================================================== *)

Lemma returns_bind {A B} (m : M A) (k : A -> M B) :
  returns m -> (forall a, returns (k a)) -> returns (bind m k).
Proof.
  intros Hm Hk st. unfold bind.
  destruct (returns_inv m st Hm) as (a & st' & E). rewrite E. apply Hk.
Qed.

Lemma returns_process_row self w row_num row :
  returns (process_row self w row_num row).
Proof.
  unfold process_row.
  apply returns_bind; [intro; eexists; reflexivity | intros _].
  apply returns_try. intros e. unfold row_except.
  do 2 (apply returns_bind; [intro; eexists; reflexivity | intros _]).
  apply returns_bind; [apply returns_generate_mock_price | intros price].
  apply returns_bind; [intro; eexists; reflexivity | intros now].
  intro. eexists. reflexivity.
Qed.

Lemma bind_count {A B} f (m : M A) (k : A -> M B) st n :
  count_events f (trace (snd (m st))) = n ->
  (forall a, keeps (extends (fun e => f e = false)) (k a)) ->
  count_events f (trace (snd (bind m k st))) = n.
Proof.
  intros Hm Hk. unfold bind.
  destruct (m st) as [[a | e] s1]; simpl in Hm; [| exact Hm].
  rewrite (count_events_extends f s1 _ (Hk a s1)). exact Hm.
Qed.

Lemma try_count {A} f (m : M A) (h : exn -> M A) st n :
  count_events f (trace (snd (m st))) = n ->
  (forall e, keeps (extends (fun e => f e = false)) (h e)) ->
  count_events f (trace (snd (try_except m h st))) = n.
Proof.
  intros Hm Hh. unfold try_except.
  destruct (m st) as [[a | e] s1]; simpl in Hm; [exact Hm |].
  rewrite (count_events_extends f s1 _ (Hh e s1)). exact Hm.
Qed.

(** [_make_api_call] sends one request when the request can be built, and
    none otherwise. *)
Lemma make_api_call_gets self w row st :
  count_events is_get (trace (snd (_make_api_call self w row st)))
  = (count_events is_get (trace st) + (if sendable row then 1 else 0))%nat.
Proof.
  pose proof (count_events_extends is_get st _
                (ext_build_params self w (fun e => is_get e = false)
                   (fun _ _ => eq_refl) row st)) as Hb.
  pose proof (build_params_outcome self w row st) as Ho.
  unfold sendable. unfold _make_api_call, try_except, api_call_body, bind.
  destruct (name_sent row) as [| name]; simpl quote_plus in Ho.
  - destruct Ho as (s1 & E). rewrite E in Hb |- *. simpl in Hb.
    simpl. rewrite count_events_app, Hb. simpl. lia.
  - destruct Ho as (params & s1 & E & _). rewrite E in Hb |- *. simpl in Hb.
    unfold send_request, http_get, bind, tick, emit, lift. simpl.
    destruct (session_get w (step s1) (base_url self) params)
      as [response | e].
    + destruct (status_code response =? 200); simpl;
        rewrite !count_events_app, Hb; simpl; lia.
    + destruct e; simpl; rewrite !count_events_app, Hb; simpl; lia.
Qed.

Lemma process_row_gets self w row_num row st :
  count_events is_get (trace (snd (process_row self w row_num row st)))
  = (count_events is_get (trace st) + (if sendable row then 1 else 0))%nat.
Proof.
  set (Q := fun e => is_get e = false).
  assert (Qlog : forall l m, Q (EvLog l m)) by reflexivity.
  assert (Qsleep : forall d, Q (EvSleep d)) by reflexivity.
  change (process_row self w row_num row st)
    with (try_except (row_try self w row_num row)
            (row_except self w row_num row) (snd (incr_total_rows st))).
  apply try_count; [| intros e; apply ext_row_except; assumption].
  unfold row_try.
  apply bind_count; [rewrite make_api_call_gets; reflexivity |].
  intros success.
  apply (keeps_bind (extends Q) (extends_trans Q));
    [apply ext_generate_mock_price | intros price].
  apply (keeps_bind (extends Q) (extends_trans Q));
    [apply ext_strftime | intros now].
  apply (keeps_bind (extends Q) (extends_trans Q)); [ext_step Q | intros _].
  apply (keeps_bind (extends Q) (extends_trans Q)).
  - destruct success;
      (apply (keeps_bind (extends Q) (extends_trans Q));
       [ext_step Q | intros _; apply ext_log; assumption]).
  - intros _. apply (keeps_bind (extends Q) (extends_trans Q));
      [ext_step Q | intros s].
    destruct (row_num <? total_rows s);
      [apply ext_sleep; assumption | ext_step Q].
Qed.

Lemma for_rows_gets self w rows :
  forall row_num st,
    count_events is_get (trace (snd (for_rows self w rows row_num st)))
    = (count_events is_get (trace st) + count_sendable rows)%nat.
Proof.
  induction rows as [| row rest IH]; intros row_num st; simpl.
  - lia.
  - pose proof (process_row_gets self w row_num row st) as H1.
    unfold bind.
    destruct (returns_inv (process_row self w row_num row) st
                (returns_process_row self w row_num row)) as ([] & s1 & E).
    rewrite E in H1 |- *. simpl in H1. rewrite IH, H1. lia.
Qed.

(** X5.  A run sends one request for each row whose request can be built, and
    no other: there is no retry, and a row whose name is [None] is never
    sent. *)
Theorem one_request_per_sendable_row self w csv_file_path st tbl names :
  open_csv w csv_file_path = Ok tbl ->
  fieldnames tbl = Some names ->
  count_events is_get (trace (snd (process_csv self w csv_file_path st)))
  = (count_events is_get (trace st) + count_sendable (rows tbl))%nat.
Proof.
  intros Hopen Hnames. rewrite process_csv_unfold.
  set (Q := fun e => is_get e = false).
  set (s0 := {| stats := stats (reset st); results := results (reset st);
                step := step (reset st);
                trace := (trace (reset st)
                          ++ [EvLog INFO (MsgColumnCount (length names))])
                         ++ [EvLog INFO (MsgColumns names)] |}).
  pose proof (for_rows_gets self w (rows tbl) 2 s0) as Hloop.
  destruct (for_rows_counted self w (rows tbl) 2 s0 eq_refl)
    as (rs & s1 & Erun & _).
  rewrite Erun in Hloop. simpl in Hloop.
  rewrite !count_events_app in Hloop. simpl in Hloop.
  apply bind_count.
  - rewrite (read_and_process_after_loop self w csv_file_path (reset st)
               tbl names s1 Hopen Hnames Erun).
    destruct (read_error tbl) as [e |]; simpl;
      rewrite ?count_events_app; simpl; lia.
  - intros _. apply (keeps_bind (extends Q) (extends_trans Q));
      [ext_step Q | intros rs'].
    apply (keeps_bind (extends Q) (extends_trans Q));
      [apply ext_write_results_csv; intros e He; exact He
      | intros _; ext_step Q].
Qed.

Lemma one_request_per_sendable_row_witness :
  count_events is_get
    (trace (snd (process_csv Scenario.plain Scenario.calm "wines.csv" fresh)))
  = 2%nat.
Proof.
  apply (one_request_per_sendable_row Scenario.plain Scenario.calm
           "wines.csv" fresh Scenario.two_rows ["Vintage"; "Wine Name"]);
    reflexivity.
Defined.

(* ===================================================================== *)
(** * Failures while reading                                              *)
(* ===================================================================== *)

(** X6.  When the input cannot be opened, [process_csv] logs one error line
    (the file-not-found one for [FileNotFoundError]) and raises the same
    exception; the counters are all zero, there is no result, and nothing
    else happened: no request, no question, no results file. *)
Theorem open_failure_aborts self w csv_file_path st e :
  open_csv w csv_file_path = Raise e ->
  process_csv self w csv_file_path st
  = (Raise e,
     {| stats := new_stats; results := []; step := step st;
        trace :=
          trace st
          ++ [EvLog ERROR
                (match e with
                 | FileNotFoundError => MsgFileNotFound csv_file_path
                 | _ => MsgReadError e
                 end)] |}).
Proof.
  intros Hopen. rewrite process_csv_unfold.
  unfold bind, read_and_process, try_except, bind, lift. rewrite Hopen.
  destruct e; reflexivity.
Qed.

Lemma open_failure_aborts_witness :
  open_csv Scenario.missing "nowhere.csv"
  = Raise FileNotFoundError /\
  process_csv Scenario.plain Scenario.missing "nowhere.csv" fresh
  = (Raise FileNotFoundError,
     {| stats := new_stats; results := []; step := 0;
        trace := [EvLog ERROR (MsgFileNotFound "nowhere.csv")] |}).
Proof.
  split; [reflexivity |].
  apply (open_failure_aborts Scenario.plain Scenario.missing
           "nowhere.csv" fresh FileNotFoundError).
  reflexivity.
Defined.

(** X7.  An input without a header (an empty file) makes [process_csv] raise
    [TypeError], from [len] of the missing field names; it is logged as a
    read error, and nothing was processed or written. *)
Theorem empty_file_raises_type_error self w csv_file_path st tbl :
  open_csv w csv_file_path = Ok tbl ->
  fieldnames tbl = None ->
  process_csv self w csv_file_path st
  = (Raise TypeError,
     {| stats := new_stats; results := []; step := step st;
        trace := trace st ++ [EvLog ERROR (MsgReadError TypeError)] |}).
Proof.
  intros Hopen Hnames. rewrite process_csv_unfold.
  unfold bind, read_and_process, try_except, bind, lift.
  rewrite Hopen, Hnames. reflexivity.
Qed.

Lemma empty_file_raises_type_error_witness :
  process_csv Scenario.plain Scenario.empty "wines.csv" fresh
  = (Raise TypeError,
     {| stats := new_stats; results := []; step := 0;
        trace := [EvLog ERROR (MsgReadError TypeError)] |}).
Proof.
  apply (empty_file_raises_type_error Scenario.plain Scenario.empty
           "wines.csv" fresh Scenario.empty_file);
    reflexivity.
Defined.

(** X8.  An error that ends the reading after N rows: the N rows were handled
    (their requests sent, their results recorded in the store), then
    [process_csv] logs the error and raises it, and the results are never
    written: the run warns of no file, asks nothing and writes nothing. *)
Theorem read_error_loses_results self w csv_file_path st tbl names e :
  open_csv w csv_file_path = Ok tbl ->
  fieldnames tbl = Some names ->
  read_error tbl = Some e ->
  let run := process_csv self w csv_file_path st in
  fst run = Raise e /\
  length (results (snd run)) = length (rows tbl) /\
  count_events is_get (trace (snd run))
  = (count_events is_get (trace st) + count_sendable (rows tbl))%nat /\
  count_events is_output (trace (snd run))
  = count_events is_output (trace st) /\
  last (trace (snd run))
  = Some (EvLog ERROR
            (match e with
             | FileNotFoundError => MsgFileNotFound csv_file_path
             | _ => MsgReadError e
             end)).
Proof.
  intros Hopen Hnames Herr run. subst run.
  set (Q := fun e => is_output e = false).
  set (s0 := {| stats := stats (reset st); results := results (reset st);
                step := step (reset st);
                trace := (trace (reset st)
                          ++ [EvLog INFO (MsgColumnCount (length names))])
                         ++ [EvLog INFO (MsgColumns names)] |}).
  destruct (for_rows_counted self w (rows tbl) 2 s0 eq_refl)
    as (rs & s1 & Erun & Hres & Hlen & _).
  pose proof (for_rows_gets self w (rows tbl) 2 s0) as Hgets.
  pose proof (count_events_extends is_output s0 _
                (ext_for_rows self w Q (fun _ _ => eq_refl)
                   (fun _ => eq_refl) (fun _ _ => eq_refl)
                   (rows tbl) 2 s0)) as Hout.
  rewrite Erun in Hgets, Hout. simpl in Hgets, Hout.
  rewrite !count_events_app in Hgets, Hout. simpl in Hgets, Hout.
  assert (E : process_csv self w csv_file_path st
              = (Raise e,
                 {| stats := stats s1; results := results s1;
                    step := step s1;
                    trace :=
                      trace s1
                      ++ [EvLog ERROR
                            (match e with
                             | FileNotFoundError =>
                                 MsgFileNotFound csv_file_path
                             | _ => MsgReadError e
                             end)] |})).
  { rewrite process_csv_unfold. unfold bind at 1.
    rewrite (read_and_process_after_loop self w csv_file_path (reset st)
               tbl names s1 Hopen Hnames Erun), Herr.
    reflexivity. }
  rewrite E. cbn [fst snd results trace].
  rewrite Hres, last_snoc, !count_events_app. simpl.
  repeat split; lia.
Qed.

Lemma read_error_loses_results_witness :
  let run := process_csv Scenario.plain Scenario.garbled "wines.csv" fresh in
  fst run = Raise ValueError /\
  length (results (snd run)) = 2%nat /\
  count_events is_get (trace (snd run)) = 2%nat /\
  count_events is_output (trace (snd run)) = 0%nat /\
  last (trace (snd run)) = Some (EvLog ERROR (MsgReadError ValueError)).
Proof.
  apply (read_error_loses_results Scenario.plain Scenario.garbled "wines.csv"
           fresh Scenario.garbled_file ["Wine Name"; "Vintage"] ValueError);
    reflexivity.
Defined.

(* ===================================================================== *)
(** * Writing the results                                                 *)
(* ===================================================================== *)

Lemma result_cells_length mock r :
  length (result_cells mock r) = length (results_header mock).
Proof. destruct mock; reflexivity. Qed.

(** X9.  A write that succeeds.  After the loop and the choice of the path the
    run performs exactly one write, of a header line and one line per
    result, in order, and logs it; every line has as many cells as the
    header, six with the "Mock Price" column when mock pricing is on, five
    without it otherwise; the statistics of the loop are returned. *)
Theorem results_written_once self w csv_file_path st st1 path st2 :
  read_and_process self w csv_file_path (reset st) = (Ok tt, st1) ->
  choose_output_path w csv_file_path st1 = (Ok path, st2) ->
  write_csv w path (results_table self (results st1)) = Ok tt ->
  process_csv self w csv_file_path st
  = (Ok (stats st1),
     {| stats := stats st2; results := results st2; step := step st2;
        trace := (trace st2
                  ++ [EvWrite path (results_table self (results st1))])
                 ++ [EvLog INFO (MsgResultsWritten path)] |}) /\
  length (results_table self (results st1)) = S (length (results st1)) /\
  Forall
    (fun line =>
       length line = if enable_mock_pricing self then 6%nat else 5%nat)
    (results_table self (results st1)) /\
  (In "Mock Price" (results_header (enable_mock_pricing self))
   <-> enable_mock_pricing self = true).
Proof.
  intros Hloop Hpath Hwrite.
  pose proof (quiet_choose_output_path w csv_file_path st1) as (Hs & _ & _).
  rewrite Hpath in Hs. simpl in Hs.
  split; [| split; [| split]].
  - rewrite process_csv_unfold. unfold bind. rewrite Hloop.
    unfold get_results, _write_results_csv, bind. cbv beta iota.
    rewrite Hpath. unfold try_except, write_table, bind, lift.
    change (results_header (enable_mock_pricing self)
            :: map (result_cells (enable_mock_pricing self)) (results st1))
      with (results_table self (results st1)).
    rewrite Hwrite. unfold emit, log, emit, get_stats. simpl.
    rewrite Hs. reflexivity.
  - unfold results_table. simpl. rewrite length_map. reflexivity.
  - unfold results_table. constructor.
    + destruct (enable_mock_pricing self); reflexivity.
    + apply Forall_forall. intros line Hin.
      apply list_elem_of_In, in_map_iff in Hin as (r & <- & _).
      rewrite result_cells_length.
      destruct (enable_mock_pricing self); reflexivity.
  - destruct (enable_mock_pricing self); split.
    + reflexivity.
    + intros _. simpl. do 4 right. left. reflexivity.
    + intros H. simpl in H.
      repeat (destruct H as [H | H]; [discriminate H |]). destruct H.
    + discriminate.
Qed.

Lemma results_written_once_witness :
  fst (process_csv Scenario.pricing Scenario.calm "wines.csv" fresh)
  = Ok {| total_rows := 2; successful_calls := 2; failed_calls := 0;
          skipped_rows := 0 |} /\
  count_events is_output
    (trace (snd (process_csv Scenario.pricing Scenario.calm "wines.csv"
                   fresh))) = 1%nat.
Proof.
  pose (run := read_and_process Scenario.pricing Scenario.calm "wines.csv"
                 (reset fresh)).
  pose (chosen := choose_output_path Scenario.calm "wines.csv" (snd run)).
  destruct (results_written_once Scenario.pricing Scenario.calm "wines.csv"
              fresh (snd run) "wines_results.csv" (snd chosen))
    as (E & _); [vm_compute; reflexivity ..|].
  rewrite E. split; vm_compute; reflexivity.
Defined.

(** X10.  The question about overwriting is asked outside every [try]: when the
    results path exists and the console is closed, the [EOFError] of
    [input] leaves [process_csv], after every row was processed; the
    statistics are not returned and no results file is written. *)
Theorem closed_console_aborts_after_loop self w csv_file_path st st1 e :
  read_and_process self w csv_file_path (reset st) = (Ok tt, st1) ->
  path_exists w (results_path csv_file_path) = true ->
  console_input w = Raise e ->
  process_csv self w csv_file_path st
  = (Raise e,
     {| stats := stats st1; results := results st1; step := step st1;
        trace := (trace st1 ++ [EvWarnExists (results_path csv_file_path)])
                 ++ [EvInput "Do you want to overwrite it? (y/n): "] |}).
Proof.
  intros Hloop Hexists Hinput.
  rewrite process_csv_unfold. unfold bind. rewrite Hloop.
  unfold get_results, _write_results_csv, choose_output_path, bind.
  cbv beta iota. rewrite Hexists. unfold emit, lift. cbv beta iota.
  rewrite Hinput. reflexivity.
Qed.

Lemma closed_console_aborts_after_loop_witness :
  fst (process_csv Scenario.plain Scenario.unattended "wines.csv" fresh)
  = Raise EOFError /\
  length (results (snd (process_csv Scenario.plain Scenario.unattended
                          "wines.csv" fresh))) = 2%nat.
Proof.
  pose (run := read_and_process Scenario.plain Scenario.unattended
                 "wines.csv" (reset fresh)).
  rewrite (closed_console_aborts_after_loop Scenario.plain
             Scenario.unattended "wines.csv" fresh (snd run) EOFError);
    [| vm_compute; reflexivity ..].
  split; vm_compute; reflexivity.
Defined.

(* ===================================================================== *)
(** * Two prices for one row                                              *)
(* ===================================================================== *)







(* ===================================================================== *)
(** * The endpoint kept by the constructor                                *)
(* ===================================================================== *)

Lemma append_assoc (a b c : string) : (a +:+ b) +:+ c = a +:+ (b +:+ c).
Proof.
  induction a as [| x a IH]; [reflexivity |].
  rewrite !append_cons, IH. reflexivity.
Qed.

Lemma append_empty_r (s : string) : s +:+ "" = s.
Proof.
  induction s as [| x s IH]; [reflexivity |].
  rewrite append_cons, IH. reflexivity.
Qed.

Lemma rev_onto_append (s acc : string) : rev_onto s acc = reverse s +:+ acc.
Proof.
  unfold reverse. revert acc.
  induction s as [| x s IH]; intros acc; simpl; [reflexivity |].
  rewrite (IH (String x acc)), (IH (String x "")), append_assoc.
  reflexivity.
Qed.

Lemma reverse_cons (x : ascii) (s : string) :
  reverse (String x s) = reverse s +:+ String x "".
Proof. unfold reverse at 1. simpl. apply rev_onto_append. Qed.

Lemma reverse_append (s t : string) :
  reverse (s +:+ t) = reverse t +:+ reverse s.
Proof.
  induction s as [| x s IH].
  - rewrite append_empty. change (reverse "") with "".
    rewrite append_empty_r. reflexivity.
  - rewrite append_cons, !reverse_cons, IH, append_assoc. reflexivity.
Qed.

Lemma reverse_reverse (s : string) : reverse (reverse s) = s.
Proof.
  induction s as [| x s IH]; [reflexivity |].
  rewrite reverse_cons, reverse_append, IH. reflexivity.
Qed.

Lemma replicate_char_snoc (n : nat) (c : ascii) :
  replicate_char n c +:+ String c "" = String c (replicate_char n c).
Proof.
  induction n as [| n IH]; [reflexivity |].
  simpl. rewrite append_cons, IH. reflexivity.
Qed.

Lemma reverse_replicate_char (n : nat) (c : ascii) :
  reverse (replicate_char n c) = replicate_char n c.
Proof.
  induction n as [| n IH]; [reflexivity |].
  simpl. rewrite reverse_cons, IH. apply replicate_char_snoc.
Qed.

(** [lstrip_char] removes a run of the character and stops at another. *)
Lemma lstrip_char_split (x : ascii) (s : string) :
  exists n,
    s = replicate_char n x +:+ lstrip_char x s /\
    match lstrip_char x s with
    | EmptyString => True
    | String a _ => Ascii.eqb a x = false
    end.
Proof.
  induction s as [| a s (n & IH1 & IH2)].
  - exists 0%nat. split; [reflexivity | exact I].
  - simpl. destruct (Ascii.eqb a x) eqn:E.
    + apply Ascii.eqb_eq in E as ->. exists (S n). split; [| exact IH2].
      simpl. rewrite append_cons, <- IH1. reflexivity.
    + exists 0%nat. split; [reflexivity | exact E].
Qed.

Lemma ends_with_snoc (c a : ascii) (s : string) :
  ends_with c (s +:+ String a "") = Ascii.eqb a c.
Proof.
  induction s as [| x s IH]; [reflexivity |].
  rewrite append_cons.
  destruct s as [| y s]; [reflexivity |].
  rewrite append_cons in IH |- *. exact IH.
Qed.

(** X12.  The constructor keeps the endpoint without its trailing slashes: what
    it stores does not end with a slash, and the endpoint given is what it
    stores followed by slashes only.  The other three arguments are kept as
    they are. *)
Theorem constructor_strips_trailing_slashes key url delay mock :
  let self := __init__ key url delay mock in
  ends_with "/" (base_url self) = false /\
  (exists n, url = base_url self +:+ replicate_char n "/") /\
  api_key self = key /\
  (rate_limit_delay self = delay /\ enable_mock_pricing self = mock).
Proof.
  simpl. unfold rstrip_char.
  destruct (lstrip_char_split "/" (reverse url)) as (n & Hsplit & Hhead).
  split; [| split; [| repeat split]].
  - destruct (lstrip_char "/" (reverse url)) as [| a t]; [reflexivity |].
    rewrite reverse_cons, ends_with_snoc. exact Hhead.
  - exists n.
    rewrite <- (reverse_reverse url) at 1.
    rewrite Hsplit at 1.
    rewrite reverse_append, reverse_replicate_char. reflexivity.
Qed.

(* ===================================================================== *)
(** * Output paths of a path with ".csv"                                  *)
(* ===================================================================== *)

(** X13.  For an input path that contains ".csv", the results path and the dated
    path both differ from the input path and from each other, so whatever
    the operator answers the writer is not directed to the input file. *)
Theorem output_paths_spare_the_input (timestamp p : string) :
  contains ".csv" p = true ->
  results_path p <> p /\
  dated_results_path timestamp p <> p /\
  dated_results_path timestamp p <> results_path p /\
  forall w st q, fst (choose_output_path w p st) = Ok q -> q <> p.
Proof.
  intros H.
  assert (Hall : forall new c rest,
             new = String c rest -> c <> "."%char ->
             replace ".csv" new p <> p).
  { intros new c rest -> Hc.
    destruct (contains_csv_split p H) as (a & b & -> & Ha).
    rewrite replace_csv_split by exact Ha.
    intros E. apply append_inv_head in E.
    rewrite !append_cons in E. injection E as E _. contradiction. }
  assert (H1 : results_path p <> p).
  { apply (Hall _ "_"%char "results.csv"); [reflexivity | discriminate]. }
  assert (H2 : forall ts, dated_results_path ts p <> p).
  { intros ts.
    apply (Hall _ "_"%char ("results_" +:+ ts +:+ ".csv"));
      [reflexivity | discriminate]. }
  split; [exact H1 |]. split; [apply H2 |].
  split; [apply dated_results_path_differs, H |].
  intros w st q Hq. rewrite choose_output_path_value in Hq.
  destruct (path_exists w (results_path p)).
  - destruct (console_input w) as [answer | e]; [| discriminate].
    destruct (str_in (lower (strip answer)) ["y"; "yes"]);
      injection Hq as <-; [exact H1 | apply H2].
  - injection Hq as <-. exact H1.
Qed.

Lemma output_paths_spare_the_input_witness :
  results_path "wines.csv" <> "wines.csv" /\
  dated_results_path "20240501_120000" "wines.csv" <> "wines.csv" /\
  dated_results_path "20240501_120000" "wines.csv"
  <> results_path "wines.csv" /\
  forall w st q,
    fst (choose_output_path w "wines.csv" st) = Ok q -> q <> "wines.csv".
Proof.
  apply (output_paths_spare_the_input "20240501_120000" "wines.csv").
  reflexivity.
Defined.

(* ===================================================================== *)
(** * The command line                                                    *)
(* ===================================================================== *)

Import CommandLine.

Lemma or_default_absent x dflt : absent x = true -> or_default x dflt = dflt.
Proof.
  destruct x as [s |]; simpl; [| reflexivity]. intros ->. reflexivity.
Qed.

Lemma process_csv_open_failure self w csv_file_path st e :
  open_csv w csv_file_path = Raise e ->
  fst (process_csv self w csv_file_path st) = Raise e.
Proof.
  intros Hopen. rewrite process_csv_unfold.
  unfold bind, read_and_process, try_except, bind, lift. rewrite Hopen.
  destruct e; reflexivity.
Qed.

Lemma process_csv_returns_after_choice self w csv_file_path st st1 path st2 :
  read_and_process self w csv_file_path (reset st) = (Ok tt, st1) ->
  choose_output_path w csv_file_path st1 = (Ok path, st2) ->
  exists s, fst (process_csv self w csv_file_path st) = Ok s.
Proof.
  intros Hloop Hpath. rewrite process_csv_unfold.
  unfold bind at 1. rewrite Hloop.
  unfold bind at 1, get_results at 1. unfold bind at 1.
  pose proof (write_results_csv_returns self w (results st1) csv_file_path
                st1 path st2 Hpath) as Hw.
  destruct (_write_results_csv self w (results st1) csv_file_path st1)
    as [[[] | e] s3]; simpl in Hw; [| discriminate].
  eexists. reflexivity.
Qed.

Lemma main_with_file args w stdin st :
  absent (arg_csv_file args) = false ->
  main args w stdin st
  = match
      process_csv
        (__init__ (or_default (arg_api_key args) "test_api_key_123")
           (or_default (arg_api_url args) "https://postman-echo.com/get")
           (arg_rate_limit args) (arg_enable_mock_pricing args))
        (with_stdin w stdin) (or_default (arg_csv_file args) "") st
    with
    | (Ok _, st') => (Ok Returned, st')
    | (Raise _, st') => (Ok (SysExit 1), st')
    end.
Proof.
  intros Hfile. unfold main. rewrite Hfile.
  change (false && absent (arg_api_key args) && absent (arg_api_url args))
    with false.
  cbv iota. unfold try_except, bind.
  destruct (process_csv _ (with_stdin w stdin) _ st) as [[s | e] st'];
    reflexivity.
Qed.

(** X14.  Given a key or an endpoint but no input file, [main] does nothing: it
    returns, without an exit status of failure, and the store is as it
    was. *)
Theorem main_without_file_does_nothing args w stdin st :
  absent (arg_csv_file args) = true ->
  absent (arg_api_key args) && absent (arg_api_url args) = false ->
  main args w stdin st = (Ok Returned, st).
Proof.
  intros Hfile Hother. unfold main.
  rewrite Hfile. rewrite <- andb_assoc, Hother. reflexivity.
Qed.

Lemma main_without_file_does_nothing_witness :
  main Session.key_only Scenario.calm [] fresh = (Ok Returned, fresh).
Proof.
  apply (main_without_file_does_nothing Session.key_only Scenario.calm []
           fresh);
    reflexivity.
Defined.

(** X15.  With an input file on the command line, [main] never lets an exception
    out; it exits with status 1 when the input cannot be opened; and it
    returns normally once the loop is done and the output path is chosen,
    whether or not the results could be written. *)
Theorem main_exit_status args w stdin st :
  absent (arg_csv_file args) = false ->
  let processor :=
    __init__ (or_default (arg_api_key args) "test_api_key_123")
      (or_default (arg_api_url args) "https://postman-echo.com/get")
      (arg_rate_limit args) (arg_enable_mock_pricing args) in
  let csv_file_path := or_default (arg_csv_file args) "" in
  (exists ending, fst (main args w stdin st) = Ok ending) /\
  (forall e,
     open_csv w csv_file_path = Raise e ->
     fst (main args w stdin st) = Ok (SysExit 1)) /\
  (forall st1 path st2,
     read_and_process processor (with_stdin w stdin) csv_file_path (reset st)
     = (Ok tt, st1) ->
     choose_output_path (with_stdin w stdin) csv_file_path st1
     = (Ok path, st2) ->
     fst (main args w stdin st) = Ok Returned).
Proof.
  intros Hfile processor csv_file_path.
  rewrite (main_with_file args w stdin st Hfile).
  fold processor csv_file_path.
  split; [| split].
  - destruct (process_csv processor (with_stdin w stdin) csv_file_path st)
      as [[s | e] st']; eexists; reflexivity.
  - intros e Hopen.
    pose proof (process_csv_open_failure processor (with_stdin w stdin)
                  csv_file_path st e Hopen) as H.
    destruct (process_csv processor (with_stdin w stdin) csv_file_path st)
      as [[s | e'] st']; [discriminate | reflexivity].
  - intros st1 path st2 Hloop Hpath.
    destruct (process_csv_returns_after_choice processor (with_stdin w stdin)
                csv_file_path st st1 path st2 Hloop Hpath) as [s H].
    destruct (process_csv processor (with_stdin w stdin) csv_file_path st)
      as [[s' | e'] st']; [reflexivity | discriminate].
Qed.

Lemma main_exit_status_witness :
  fst (main Session.file_only Scenario.missing [] fresh) = Ok (SysExit 1) /\
  fst (main Session.file_only Scenario.disk_full [] fresh) = Ok Returned.
Proof.
  split.
  - destruct (main_exit_status Session.file_only Scenario.missing [] fresh
                eq_refl) as (_ & H & _).
    apply (H FileNotFoundError). reflexivity.
  - destruct (main_exit_status Session.file_only Scenario.disk_full [] fresh
                eq_refl) as (_ & _ & H).
    eapply H; vm_compute; reflexivity.
Defined.

(** X16.  When neither key nor endpoint is given, every request of the run goes
    to https://postman-echo.com/get and carries the key
    test_api_key_123. *)
Theorem main_applies_defaults args w stdin st :
  absent (arg_csv_file args) = false ->
  absent (arg_api_key args) = true ->
  absent (arg_api_url args) = true ->
  exists new,
    trace (snd (main args w stdin st)) = (trace st ++ new)%list /\
    Forall default_request new.
Proof.
  intros Hfile Hkey Hurl.
  rewrite (main_with_file args w stdin st Hfile).
  rewrite (or_default_absent _ _ Hkey), (or_default_absent _ _ Hurl).
  set (processor := __init__ _ _ _ _).
  set (csv_file_path := or_default _ _).
  pose proof (ext_process_csv default_request
                ltac:(intros e He; destruct e; try exact I; discriminate)
                processor (with_stdin w stdin) csv_file_path st) as H.
  destruct (process_csv processor (with_stdin w stdin) csv_file_path st)
    as [[s | e] st']; simpl in H |- *; apply H;
    intros params Hfixed; (split; [reflexivity | apply Hfixed]).
Qed.

Lemma main_applies_defaults_witness :
  exists new,
    trace (snd (main Session.file_only Scenario.calm [] fresh)) = new /\
    Forall default_request new.
Proof.
  apply (main_applies_defaults Session.file_only Scenario.calm [] fresh);
    reflexivity.
Defined.

(** ** The dialogue *)

Lemma typed_or_nonempty answer dflt : dflt <> "" -> typed_or answer dflt <> "".
Proof.
  intros Hd. unfold typed_or.
  destruct (String.eqb_spec (strip answer) ""); assumption.
Qed.

Lemma collect_settings_bounded file_exists :
  forall n stdin,
    (length stdin <= n)%nat ->
    forall s rest,
      collect_settings file_exists stdin = Configured s rest ->
      file_exists (chosen_file s) = true /\
      chosen_key s <> "" /\ chosen_url s <> "" /\
      (length rest + 5 <= length stdin)%nat.
Proof.
  induction n as [| n IH]; intros stdin Hlen s rest H;
    destruct stdin as [| path stdin1]; try discriminate;
    simpl in Hlen; [lia |].
  simpl in H. destruct (file_exists (strip path)) eqn:Hex.
  - destruct stdin1 as [| key [| url [| mock [| confirm rest']]]];
      try discriminate.
    match type of H with
    | (if ?c then _ else _) = _ => destruct c
    end.
    + destruct (IH rest' ltac:(simpl in Hlen; lia) s rest H)
        as (H1 & H2 & H3 & H4).
      repeat split; try assumption. simpl. lia.
    + injection H as <- <-. simpl.
      repeat split; try assumption; try lia;
        apply typed_or_nonempty; discriminate.
  - destruct stdin1 as [| retry stdin2]; try discriminate.
    match type of H with
    | (if ?c then _ else _) = _ => destruct c
    end; try discriminate.
    destruct (IH stdin2 ltac:(simpl in Hlen; lia) s rest H)
      as (H1 & H2 & H3 & H4).
    repeat split; try assumption. simpl. lia.
Qed.

(** X17.  Whatever is typed, the dialogue of the interactive mode settles only on
    a file that exists, with a key and an endpoint that are not empty (the
    defaults stand in for empty answers), and it consumes at least the five
    answers of a complete round. *)
Theorem dialogue_settles_on_usable_settings file_exists stdin s rest :
  collect_settings file_exists stdin = Configured s rest ->
  file_exists (chosen_file s) = true /\
  chosen_key s <> "" /\ chosen_url s <> "" /\
  (length rest + 5 <= length stdin)%nat.
Proof.
  apply (collect_settings_bounded file_exists (length stdin) stdin).
  reflexivity.
Qed.

Lemma dialogue_settles_on_usable_settings_witness :
  collect_settings (path_exists Session.furnished) Session.retyped
  = Configured {| chosen_file := "wines.csv";
                  chosen_key := "test_api_key_123";
                  chosen_url := "https://postman-echo.com/get";
                  chosen_mock := true |} [""] /\
  path_exists Session.furnished "wines.csv" = true /\
  "test_api_key_123" <> "" /\ "https://postman-echo.com/get" <> "" /\
  (length [""] + 5 <= length Session.retyped)%nat.
Proof.
  split; [reflexivity |].
  apply (dialogue_settles_on_usable_settings
           (path_exists Session.furnished) Session.retyped
           {| chosen_file := "wines.csv";
              chosen_key := "test_api_key_123";
              chosen_url := "https://postman-echo.com/get";
              chosen_mock := true |} [""]).
  reflexivity.
Defined.

(** X18.  In the interactive mode a run that cannot open its input ends with exit
    status 1 only if a line is left on the console for the final "Press
    Enter to exit..."; when none is left, the [EOFError] of that [input]
    leaves the script instead. *)
Theorem interactive_failure_waits_for_enter w stdin st s rest e :
  collect_settings (path_exists w) stdin = Configured s rest ->
  open_csv w (chosen_file s) = Raise e ->
  fst (run_interactive_mode w stdin st)
  = match rest with
    | [] => Raise EOFError
    | _ :: _ => Ok (SysExit 1)
    end.
Proof.
  intros Hset Hopen. unfold run_interactive_mode. rewrite Hset.
  unfold try_except, bind.
  pose proof (process_csv_open_failure
                (__init__ (chosen_key s) (chosen_url s) 1 (chosen_mock s))
                (with_stdin w rest) (chosen_file s) st e Hopen) as H.
  destruct (process_csv _ (with_stdin w rest) (chosen_file s) st)
    as [[s' | e'] st']; [discriminate |].
  destruct rest; reflexivity.
Qed.

Lemma interactive_failure_waits_for_enter_witness :
  fst (run_interactive_mode Session.unreadable Session.typed fresh)
  = Ok (SysExit 1) /\
  fst (run_interactive_mode Session.unreadable
         ["wines.csv"; ""; ""; ""; ""] fresh)
  = Raise EOFError.
Proof.
  split.
  - apply (interactive_failure_waits_for_enter Session.unreadable
             Session.typed fresh
             {| chosen_file := "wines.csv";
                chosen_key := "test_api_key_123";
                chosen_url := "https://postman-echo.com/get";
                chosen_mock := true |} [""] OSError);
      reflexivity.
  - apply (interactive_failure_waits_for_enter Session.unreadable
             ["wines.csv"; ""; ""; ""; ""] fresh
             {| chosen_file := "wines.csv";
                chosen_key := "test_api_key_123";
                chosen_url := "https://postman-echo.com/get";
                chosen_mock := false |} [] OSError);
      reflexivity.
Defined.
